(** * The toncenter v3 adapter of the TON chain ([src/api/chains/ton/util/apiV3.ts])

    A shallow embedding of [fetchTransactions], [parseRawTransaction],
    [fetchAddressBook], [fixAddressFormat], [callApiV3] and [msToSec], and
    the properties of the transaction-history specification stated on them.

    Conventions of the embedding.
    - A JavaScript exception (a rejected promise, for the [async] functions)
      is a value [Throw e] of the type [Result]; [await] is the bind of that
      monad.
    - A JSON object used as a dictionary (the address book) is a [gmap] with
      string keys, holding its own properties; reading a key goes through
      [get_property], which also finds the members that every object
      inherits.  A JSON field that may be [null] is an [option]; an absent
      key of the produced record ([shouldHide], [fromAddress], [body]) is
      [None].
    - Numbers are integers ([Z]): millisecond and second timestamps, limits
      and exit codes.  On integers below 2^53 [Math.floor (ms / 1000)] is the
      floor of the exact quotient, which is [Z.div].
    - BigInts are [Z]. *)

From Stdlib Require Import ZArith Ascii String.
From stdpp Require Import gmap strings list fin_maps pretty.

Local Open Scope Z_scope.

(** ** Exceptions *)

(** The classes of the exceptions the code can raise.  ECMAScript fixes the
    class of an error raised by the runtime, not its message, so the runtime
    errors carry none.  [Failure] stands for whatever the collaborators that
    are not part of this module raise (the transport, the address codec). *)
Inductive JsError : Type :=
  | TypeError
  | SyntaxError
  | Failure (reason : string).

Inductive Result (A : Type) : Type :=
  | Ok (a : A)
  | Throw (e : JsError).

Arguments Ok {A} a.
Arguments Throw {A} e.

#[global] Instance JsError_eq_dec : EqDecision JsError.
Proof. solve_decision. Defined.

#[global] Instance Result_ret : MRet Result := λ A a, Ok a.

#[global] Instance Result_bind : MBind Result := λ A B f m,
  match m with
  | Ok a => f a
  | Throw e => Throw e
  end.

#[global] Instance Result_fmap : FMap Result := λ A B f m,
  match m with
  | Ok a => Ok (f a)
  | Throw e => Throw e
  end.

Definition is_Ok {A} (m : Result A) : bool :=
  match m with Ok _ => true | Throw _ => false end.

(** ** JavaScript primitives used by the module *)

(** [!!s] for a field holding a string or [null]. *)
Definition truthy_string (s : option string) : bool :=
  match s with
  | Some s => negb (String.eqb s "")
  | None => false
  end.

(** [!!n] for a field holding an integer or [undefined]. *)
Definition truthy_number (n : option Z) : bool :=
  match n with
  | Some n => negb (n =? 0)
  | None => false
  end.

(** [!!b] for an optional boolean. *)
Definition truthy_bool (b : option bool) : bool :=
  match b with
  | Some b => b
  | None => false
  end.

(** The property key [obj[k]] reads when [k] is a string or [null]. *)
Definition toPropertyKey (k : option string) : string :=
  match k with
  | Some s => s
  | None => "null"
  end.

(** *** Reading a property: [obj[key]]

    An object decoded from JSON has [Object.prototype] as its prototype, so
    [obj[key]] is the object's own property when it has one, else the member
    of that name that it inherits, else [undefined].  The inherited members
    are those of ECMAScript, Annex B included; each of them is an object (a
    function, or the prototype itself for [__proto__]) that has no property
    of the names this module reads, as long as nothing has been added to the
    built-in prototypes. *)
Definition Object_prototype_keys : list string :=
  [ "constructor"; "hasOwnProperty"; "isPrototypeOf"; "propertyIsEnumerable";
    "toLocaleString"; "toString"; "valueOf"; "__proto__";
    "__defineGetter__"; "__defineSetter__"; "__lookupGetter__";
    "__lookupSetter__" ].

Inductive PropertyValue (A : Type) : Type :=
  | OwnValue (a : A)
  | InheritedMember (name : string)
  | Undefined.

Arguments OwnValue {A} a.
Arguments InheritedMember {A} name.
Arguments Undefined {A}.

Definition get_property {A} (obj : gmap string A) (key : string)
    : PropertyValue A :=
  match obj !! key with
  | Some a => OwnValue a
  | None =>
      if bool_decide (key ∈ Object_prototype_keys) then InheritedMember key
      else Undefined
  end.

(** *** [BigInt(string)]

    StringToBigInt of ECMAScript on strings of ASCII characters: white space
    is trimmed, the empty string is [0n], [0x], [0o] and [0b] introduce an
    unsigned literal in that radix, anything else is an optionally signed run
    of decimal digits. *)
Definition is_white_space (c : ascii) : bool :=
  let n := nat_of_ascii c in
  ((n =? 9) || (n =? 10) || (n =? 11) || (n =? 12) || (n =? 13) || (n =? 32))%nat.

Fixpoint trim_start (s : string) : string :=
  match s with
  | String c s' => if is_white_space c then trim_start s' else s
  | EmptyString => EmptyString
  end.

Definition trim (s : string) : string :=
  String.rev (trim_start (String.rev (trim_start s))).

Definition digit_value (radix : Z) (c : ascii) : option Z :=
  let n := Z.of_nat (nat_of_ascii c) in
  let d :=
    if (48 <=? n) && (n <=? 57) then Some (n - 48)
    else if (97 <=? n) && (n <=? 102) then Some (n - 87)
    else if (65 <=? n) && (n <=? 70) then Some (n - 55)
    else None in
  match d with
  | Some d => if d <? radix then Some d else None
  | None => None
  end.

Fixpoint digits_value (radix acc : Z) (s : string) : option Z :=
  match s with
  | EmptyString => Some acc
  | String c s' =>
      match digit_value radix c with
      | Some d => digits_value radix (radix * acc + d) s'
      | None => None
      end
  end.

(** A non-empty run of digits of the radix. *)
Definition parse_digits (radix : Z) (s : string) : option Z :=
  match s with
  | EmptyString => None
  | _ => digits_value radix 0 s
  end.

Definition StringToBigInt (s : string) : option Z :=
  let t := trim s in
  match t with
  | EmptyString => Some 0
  | String "0" (String ("x" | "X") rest) => parse_digits 16 rest
  | String "0" (String ("o" | "O") rest) => parse_digits 8 rest
  | String "0" (String ("b" | "B") rest) => parse_digits 2 rest
  | String "-" rest => Z.opp <$> parse_digits 10 rest
  | String "+" rest => parse_digits 10 rest
  | _ => parse_digits 10 t
  end.

(** [BigInt(v)] for a JSON field holding a string or [null]. *)
Definition BigInt (v : option string) : Result Z :=
  match v with
  | None => Throw TypeError
  | Some s =>
      match StringToBigInt s with
      | Some z => Ok z
      | None => Throw SyntaxError
      end
  end.

Definition is_decimal_digit (c : ascii) : bool :=
  let n := nat_of_ascii c in ((48 <=? n) && (n <=? 57))%nat.

(** Strings all of whose characters satisfy [P]; the decimal numerals are
    the non-empty ones for [is_decimal_digit]. *)
Fixpoint all_chars (P : ascii → bool) (s : string) : bool :=
  match s with
  | EmptyString => true
  | String c s' => P c && all_chars P s'
  end.

(** [Promise.all].  The promises are given by what they settle to.  The
    combined promise rejects with the reason of the promise that rejects
    first in time, so the order of settlement [order] (indices into the
    list, earliest first) is an input; indices it leaves out settle
    afterwards, in list order.  When nothing rejects the values come back in
    list order. *)
Fixpoint first_rejection {A} (settled : list (Result A)) (order : list nat)
    : option JsError :=
  match order with
  | [] => None
  | i :: order' =>
      match settled !! i with
      | Some (Throw e) => Some e
      | _ => first_rejection settled order'
      end
  end.

Definition Promise_all {A} (order : list nat) (settled : list (Result A))
    : Result (list A) :=
  match first_rejection settled (order ++ seq 0 (length settled)) with
  | Some e => Throw e
  | None => mapM id settled
  end.

(** ** Data model *)

Inductive ApiNetwork : Type := mainnet | testnet.

#[global] Instance ApiNetwork_eq_dec : EqDecision ApiNetwork.
Proof. solve_decision. Defined.

(** [type AddressBook = Record<string, { user_friendly: string }>] *)
Record AddressBookEntry : Type := { user_friendly : string }.

Abbreviation AddressBook := (gmap string AddressBookEntry).

(** The fields of a raw message that the module reads. *)
Record MessageContent : Type := { body : option string }.

Record RawMessage : Type := {
  source : option string;
  destination : option string;
  value : option string;
  msg_hash : string;                       (* [hash] of the message *)
  message_content : option MessageContent;
}.

(** The fields of a raw transaction (a ledger event) that the module reads. *)
Record ComputePhase : Type := { exit_code : option Z }.

Record Description : Type := { compute_ph : ComputePhase }.

Record RawTransaction : Type := {
  now : Z;
  tx_lt : Z;                               (* [lt] *)
  tx_hash : string;                        (* [hash] of the transaction *)
  total_fees : option string;
  description : Description;
  in_msg : RawMessage;
  out_msgs : list RawMessage;
}.

Record ExtraData : Type := { extra_body : option string }.  (* [body] *)

(** [ApiTransactionExtra], the normalized record.  [omitUndefined] drops
    the keys whose value is [undefined]: [shouldHide], and [fromAddress] or
    [toAddress] when the look-up yields no [user_friendly]; such a key is
    [None]. *)
Record ApiTransactionExtra : Type := {
  txId : string;
  timestamp : Z;
  isIncoming : bool;
  fromAddress : option string;
  toAddress : option string;
  amount : Z;
  slug : string;
  fee : Z;
  inMsgHash : string;
  normalizedAddress : string;
  shouldHide : option bool;
  extraData : ExtraData;
}.

(** The options of [fetchTransactions]; an optional property is an [option]. *)
Record FetchTransactionsOptions : Type := {
  network : ApiNetwork;
  address : string + list string;
  limit : Z;
  fromTimestamp : option Z;
  toTimestamp : option Z;
  shouldIncludeFrom : option bool;
  shouldIncludeTo : option bool;
}.

(** The query object that [fetchTransactions] hands to [callApiV3]; a
    parameter that is [undefined] is unset. *)
Record TransactionsQuery : Type := {
  account : string + list string;
  query_limit : Z;                         (* [limit] *)
  start_utime : option Z;
  end_utime : option Z;
  sort : string;
}.

(** The decoded answers of the service, in the shape each caller gives them. *)
Record TransactionsPage : Type := {
  transactions : list RawTransaction;
  address_book : AddressBook;
}.

Record AddressBookReply : Type := {
  reply_address_book : gmap string string; (* [address_book] *)
}.

(** [getEnvironment()] as far as [callApiV3] reads it; a key that is not
    configured is [None]. *)
Record Environment : Type := {
  apiHeaders : gmap string string;
  tonhttpapiMainnetKey : option string;
  tonhttpapiTestnetKey : option string;
}.

Definition ADDRESS_BOOK_CHUNK_SIZE : nat := 128.

(** Modelled from the spec: the loop of [split] (see below), which takes one
    slice of [chunkSize] elements per step; [fuel] bounds the number of
    steps, and the length of the array is enough ([split_concat]). *)
Fixpoint split_go {A} (fuel : nat) (array : list A) (chunkSize : nat)
    : list (list A) :=
  match fuel, array with
  | S fuel', _ :: _ =>
      take chunkSize array :: split_go fuel' (drop chunkSize array) chunkSize
  | _, _ => []
  end.

(** Modelled from the spec: [split] of [util/iteratees], which is not among
    the sources.  It "partitions the input address set into fixed-size
    batches (128 addresses per batch)": consecutive slices of [chunkSize]
    elements, the last one shorter when the length is not a multiple. *)
Definition split {A} (array : list A) (chunkSize : nat) : list (list A) :=
  split_go (length array) array chunkSize.

(** The same raw transaction with another list of outbound messages. *)
Definition with_out_msgs (rawTx : RawTransaction) (outs : list RawMessage)
    : RawTransaction :=
  {| now := now rawTx;
     tx_lt := tx_lt rawTx;
     tx_hash := tx_hash rawTx;
     total_fees := total_fees rawTx;
     description := description rawTx;
     in_msg := in_msg rawTx;
     out_msgs := outs |}.

(** [function msToSec(ms) { return Math.floor(ms / 1000); }] *)
Definition msToSec (ms : Z) : Z := ms / 1000.

(** [function getRawBody(msg)] *)
Definition getRawBody (msg : RawMessage) : option string :=
  match message_content msg with
  | None => None
  | Some content => body content
  end.

(** [bound && sec(bound) + shift]: [undefined] and [0] are falsy and are the
    value of the conjunction themselves. *)
Definition and_then (bound : option Z) (f : Z → Z) : option Z :=
  match bound with
  | None => None
  | Some ms => if truthy_number (Some ms) then Some (f ms) else Some ms
  end.

(** The object literal passed as query by [fetchTransactions]. *)
Definition transactionsQuery (options : FetchTransactionsOptions)
    : TransactionsQuery :=
  {| account := address options;
     query_limit := limit options;
     start_utime :=
       and_then (fromTimestamp options) (λ ms,
         msToSec ms + (if negb (truthy_bool (shouldIncludeFrom options)) then 1 else 0));
     end_utime :=
       and_then (toTimestamp options) (λ ms,
         msToSec ms - (if negb (truthy_bool (shouldIncludeTo options)) then 1 else 0));
     sort := "desc" |}.

Section Adapter.

(** What the module imports and is not among the sources. *)
Variable stringifyTxId : Z → string → string.
Variable toBase64Address : option string → bool → ApiNetwork → Result string.
Variable TONCOIN_slug : string.
Variable TONHTTPAPI_V3_MAINNET_API_URL : string.
Variable TONHTTPAPI_V3_TESTNET_API_URL : string.
Variable getEnvironment : Environment.

(** [callApiV3].  [fetchJson] answers with untyped JSON; every caller
    reads the answer at a fixed shape [R], so the transport is taken at
    that shape. *)
Definition callApiV3 {D R : Type}
    (fetchJson : string → D → gmap string string → Result R)
    (network : ApiNetwork) (path : string) (data : D) : Result R :=
  let baseUrl :=
    if decide (network = testnet) then TONHTTPAPI_V3_TESTNET_API_URL
    else TONHTTPAPI_V3_MAINNET_API_URL in
  let apiKey :=
    if decide (network = testnet) then tonhttpapiTestnetKey getEnvironment
    else tonhttpapiMainnetKey getEnvironment in
  let keyHeader : gmap string string :=
    match apiKey with
    | Some key => if truthy_string apiKey then {[ "X-Api-Key" := key ]} else ∅
    | None => ∅
    end in
  fetchJson (baseUrl +:+ path) data (apiHeaders getEnvironment ∪ keyHeader).

(** [addressBook[key].user_friendly]: the name of the own entry; [undefined]
    when [addressBook[key]] is an inherited member, which has no such
    property; a TypeError when [addressBook[key]] is [undefined]. *)
Definition user_friendly_of (addressBook : AddressBook) (key : option string)
    : Result (option string) :=
  match get_property addressBook (toPropertyKey key) with
  | OwnValue entry => Ok (Some (user_friendly entry))
  | InheritedMember _ => Ok None
  | Undefined => Throw TypeError
  end.

(** The callback of [msgs.map] in [parseRawTransaction], closed over the
    locals of the enclosing call; [count] is [msgs.length]. *)
Definition parseMessage (network : ApiNetwork) (addressBook : AddressBook)
    (rawTx : RawTransaction) (isIncoming : bool) (count : nat)
    (i : nat) (msg : RawMessage) : Result ApiTransactionExtra :=
  let txId := stringifyTxId (tx_lt rawTx) (tx_hash rawTx) in
  fromAddress ← user_friendly_of addressBook (source msg);
  toAddress ← user_friendly_of addressBook (destination msg);
  normalizedAddress ←
    toBase64Address (if isIncoming then source msg else destination msg)
      true network;
  amount ← BigInt (value msg);
  fee ← BigInt (total_fees rawTx);
  Ok {| txId :=
          if decide (1 < count)%nat then txId +:+ ":" +:+ pretty (i + 1)%nat
          else txId;
        timestamp := now rawTx * 1000;
        isIncoming := isIncoming;
        fromAddress := fromAddress;
        toAddress := toAddress;
        amount := if isIncoming then amount else - amount;
        slug := TONCOIN_slug;
        fee := fee;
        inMsgHash := msg_hash (in_msg rawTx);
        normalizedAddress := normalizedAddress;
        shouldHide :=
          if truthy_number (exit_code (compute_ph (description rawTx)))
          then Some true else None;
        extraData := {| extra_body := getRawBody msg |} |}.

(** Whether the callback returns on a message, read off its definition:
    both look-ups return, the address codec accepts the counterparty, and
    the value and the fee convert. *)
Definition messageParses (network : ApiNetwork) (addressBook : AddressBook)
    (rawTx : RawTransaction) (isIncoming : bool) (msg : RawMessage) : bool :=
  is_Ok (user_friendly_of addressBook (source msg))
  && is_Ok (user_friendly_of addressBook (destination msg))
  && is_Ok (toBase64Address (if isIncoming then source msg else destination msg)
              true network)
  && is_Ok (BigInt (value msg))
  && is_Ok (BigInt (total_fees rawTx)).

(** The messages an event is split into: [isIncoming ? [in_msg] : out_msgs]. *)
Definition relevantMessages (rawTx : RawTransaction) : list RawMessage :=
  if truthy_string (source (in_msg rawTx)) then [in_msg rawTx]
  else out_msgs rawTx.

Definition parseRawTransaction (network : ApiNetwork) (rawTx : RawTransaction)
    (addressBook : AddressBook) : Result (list ApiTransactionExtra) :=
  let isIncoming := truthy_string (source (in_msg rawTx)) in
  let msgs := relevantMessages rawTx in
  if decide (length msgs = 0%nat) then Ok []
  else
    mapM id
      (imap (parseMessage network addressBook rawTx isIncoming (length msgs))
         msgs).

Definition fetchTransactions
    (fetchJson : string → TransactionsQuery → gmap string string
                 → Result TransactionsPage)
    (options : FetchTransactionsOptions) : Result (list ApiTransactionExtra) :=
  data ← callApiV3 fetchJson (network options) "/transactions"
           (transactionsQuery options);
  let rawTransactions := transactions data in
  let addressBook := address_book data in
  if decide (length rawTransactions = 0%nat) then Ok []
  else
    parsed ←
      mapM (λ rawTx, parseRawTransaction (network options) rawTx addressBook)
        rawTransactions;
    Ok (concat parsed).

(** [fetchLatestTxId]: one event is asked for, the newest first, and its
    composite id is returned, [undefined] when there is none.  Destructuring
    [transactions[0]] would raise a TypeError on a missing element. *)
Definition fetchLatestTxId
    (fetchJson : string → TransactionsQuery → gmap string string
                 → Result TransactionsPage)
    (network : ApiNetwork) (address : string) : Result (option string) :=
  page ← callApiV3 fetchJson network "/transactions"
           {| account := inl address;
              query_limit := 1;
              start_utime := None;
              end_utime := None;
              sort := "desc" |};
  if decide (length (transactions page) = 0%nat) then Ok None
  else
    match transactions page !! 0%nat with
    | Some rawTx => Ok (Some (stringifyTxId (tx_lt rawTx) (tx_hash rawTx)))
    | None => Throw TypeError
    end.

(** The promises [fetchAddressBook] creates: one call per chunk, all of
    them issued before any is awaited. *)
Definition addressBookCalls
    (fetchJson : string → list string → gmap string string → Result AddressBook)
    (network : ApiNetwork) (addresses : list string)
    : list (Result AddressBook) :=
  let chunks := split addresses ADDRESS_BOOK_CHUNK_SIZE in
  (λ chunk, callApiV3 fetchJson network "/addressBook" chunk) <$> chunks.

(** [order] is the order in which the batch calls settle, see [Promise_all].
    [Object.assign(acc, value)] lets the later batch win on a shared key. *)
Definition fetchAddressBook
    (fetchJson : string → list string → gmap string string → Result AddressBook)
    (order : list nat) (network : ApiNetwork) (addresses : list string)
    : Result AddressBook :=
  results ← Promise_all order (addressBookCalls fetchJson network addresses);
  Ok (foldl (λ (acc value : AddressBook), value ∪ acc) ∅ results).

(** The declared result is a string; what is returned is whatever
    [result.address_book[address]] reads. *)
Definition fixAddressFormat
    (fetchJson : string → string → gmap string string → Result AddressBookReply)
    (network : ApiNetwork) (address : string) : Result (PropertyValue string) :=
  result ← callApiV3 fetchJson network "/addressBook" address;
  Ok (get_property (reply_address_book result) address).

End Adapter.

(** A record without the two fields that are read from the address book. *)
Definition forgetFriendly (r : ApiTransactionExtra) : ApiTransactionExtra :=
  {| txId := txId r;
     timestamp := timestamp r;
     isIncoming := isIncoming r;
     fromAddress := None;
     toAddress := None;
     amount := amount r;
     slug := slug r;
     fee := fee r;
     inMsgHash := inMsgHash r;
     normalizedAddress := normalizedAddress r;
     shouldHide := shouldHide r;
     extraData := extraData r |}.

(** ** The receive modal ([src/components/receive/ReceiveModal.tsx])

    The props of the component, an optional one being an [option], and the
    values its body computes from them before rendering. *)
Record StateProps : Type := {
  isOpen : option bool;
  isLedger : option bool;
  isTestnet : option bool;
  isSwapDisabled : bool;
  isOnRampDisabled : bool;
}.

(** [!isTestnet && !isLedger && !isSwapDisabled] *)
Definition isSwapAllowed (props : StateProps) : bool :=
  negb (truthy_bool (isTestnet props)) && negb (truthy_bool (isLedger props))
  && negb (isSwapDisabled props).

(** [!isTestnet && !isOnRampDisabled] *)
Definition isOnRampAllowed (props : StateProps) : bool :=
  negb (truthy_bool (isTestnet props)) && negb (isOnRampDisabled props).

(** The key handed to [lang]: [isSwapAllowed || isOnRampAllowed ? 'Add / Buy' : 'Add']. *)
Definition modalTitleKey (props : StateProps) : string :=
  if isSwapAllowed props || isOnRampAllowed props then "Add / Buy" else "Add".

(** [modalTitle]; [lang] is the translation function of [useLang]. *)
Definition modalTitle (lang : string → string) (props : StateProps) : string :=
  lang (modalTitleKey props).

(** ** Sample inputs

    Concrete collaborators, events and pages on which the statements below
    are instantiated. *)

Definition sample_stringifyTxId (lt : Z) (hash : string) : string :=
  pretty lt +:+ ":" +:+ hash.

Definition sample_toBase64Address (address : option string) (isBounceable : bool)
    (network : ApiNetwork) : Result string :=
  match address with
  | Some a => Ok ("friendly-" +:+ a)
  | None => Throw (Failure "Unknown address type")
  end.

Definition sample_environment : Environment :=
  {| apiHeaders := ∅;
     tonhttpapiMainnetKey := Some "key";
     tonhttpapiTestnetKey := None |}.

Definition sample_book : AddressBook :=
  {[ "0:A" := {| user_friendly := "UQ-A" |};
     "0:B" := {| user_friendly := "UQ-B" |} ]}.

Definition sample_message (src dst value : option string) : RawMessage :=
  {| source := src;
     destination := dst;
     value := value;
     msg_hash := "m";
     message_content := None |}.

(** An event with two outbound messages, of values 3 and 7. *)
Definition sample_outgoing : RawTransaction :=
  {| now := 1700000000;
     tx_lt := 5;
     tx_hash := "H";
     total_fees := Some "9";
     description := {| compute_ph := {| exit_code := Some 0 |} |};
     in_msg := sample_message None (Some "0:A") None;
     out_msgs := [ sample_message (Some "0:A") (Some "0:B") (Some "3");
                   sample_message (Some "0:A") (Some "0:B") (Some "7") ] |}.

(** An event with one inbound message from [0:B], of value [v]. *)
Definition sample_incoming (v : option string) : RawTransaction :=
  {| now := 1700000000;
     tx_lt := 6;
     tx_hash := "I";
     total_fees := Some "9";
     description := {| compute_ph := {| exit_code := Some 0 |} |};
     in_msg := sample_message (Some "0:B") (Some "0:A") v;
     out_msgs := [] |}.

Definition sample_options : FetchTransactionsOptions :=
  {| network := mainnet;
     address := inl "0:A";
     limit := 10;
     fromTimestamp := None;
     toTimestamp := None;
     shouldIncludeFrom := None;
     shouldIncludeTo := None |}.

(** A transport that answers every request with the same page. *)
Definition sample_transactions (page : TransactionsPage)
    : string → TransactionsQuery → gmap string string → Result TransactionsPage :=
  λ _ _ _, Ok page.

Definition sample_page : TransactionsPage :=
  {| transactions := [sample_outgoing; sample_incoming (Some "5")];
     address_book := sample_book |}.

Definition sample_mainnet_url : string := "https://toncenter.com/api/v3".

Definition sample_testnet_url : string := "https://testnet.toncenter.com/api/v3".

(** [callApiV3], [parseRawTransaction] and [fetchTransactions] on the sample
    collaborators. *)
Definition sample_callApiV3 {D R : Type}
    (fetchJson : string → D → gmap string string → Result R)
    (network : ApiNetwork) (path : string) (data : D) : Result R :=
  callApiV3 sample_mainnet_url sample_testnet_url sample_environment
    fetchJson network path data.

Definition sample_parseRawTransaction (rawTx : RawTransaction)
    (addressBook : AddressBook) : Result (list ApiTransactionExtra) :=
  parseRawTransaction sample_stringifyTxId sample_toBase64Address "toncoin"
    mainnet rawTx addressBook.

Definition sample_fetchTransactions (page : TransactionsPage)
    : Result (list ApiTransactionExtra) :=
  fetchTransactions sample_stringifyTxId sample_toBase64Address "toncoin"
    sample_mainnet_url sample_testnet_url sample_environment
    (sample_transactions page) sample_options.

(** What the code returns on the sample page and on its first event. *)
Definition sample_records : list ApiTransactionExtra :=
  Eval vm_compute in
    match sample_fetchTransactions sample_page with
    | Ok recs => recs
    | Throw _ => []
    end.

Definition sample_outgoing_records : list ApiTransactionExtra :=
  Eval vm_compute in
    match sample_parseRawTransaction sample_outgoing sample_book with
    | Ok recs => recs
    | Throw _ => []
    end.


Definition sample_page_null_value : TransactionsPage :=
  {| transactions := [sample_incoming None];
     address_book := sample_book |}.

(** Transports of the address book: one that answers a batch with exactly
    the addresses asked for, one that fails on every batch that is not full,
    and two for the single look-up, with and without the entry. *)
Definition sample_echo
    : string → list string → gmap string string → Result AddressBook :=
  λ _ chunk _,
    Ok (list_to_map ((λ a, (a, {| user_friendly := "UQ-" +:+ a |})) <$> chunk)).

Definition sample_flaky
    : string → list string → gmap string string → Result AddressBook :=
  λ url chunk headers,
    if decide (length chunk = 128%nat) then sample_echo url chunk headers
    else Throw (Failure "timeout").

Definition sample_reply (book : gmap string string)
    : string → string → gmap string string → Result AddressBookReply :=
  λ _ _ _, Ok {| reply_address_book := book |}.

(** 129 pairwise distinct addresses: two batches, of 128 and of 1. *)
Definition sample_addresses : list string :=
  (λ n : nat, "0:" +:+ pretty n) <$> seq 0 129.

(** Options that only set the time window. *)
Definition sample_window (fromMs toMs : option Z) (includeFrom includeTo : option bool)
    : FetchTransactionsOptions :=
  {| network := mainnet;
     address := inl "0:A";
     limit := 10;
     fromTimestamp := fromMs;
     toTimestamp := toMs;
     shouldIncludeFrom := includeFrom;
     shouldIncludeTo := includeTo |}.

(** The sample book with other human-readable names under the same keys. *)
Definition sample_book_renamed : AddressBook :=
  {[ "0:A" := {| user_friendly := "EQ-A" |};
     "0:B" := {| user_friendly := "EQ-B" |} ]}.

(** The query of [fetchLatestTxId] for the sample address. *)
Definition sample_latest_query : TransactionsQuery :=
  {| account := inl "0:A";
     query_limit := 1;
     start_utime := None;
     end_utime := None;
     sort := "desc" |}.

(** The props of the receive modal for a Ledger account on mainnet with
    the on-ramp allowed and swapping allowed. *)
Definition sample_props : StateProps :=
  {| isOpen := Some true;
     isLedger := Some true;
     isTestnet := None;
     isSwapDisabled := false;
     isOnRampDisabled := false |}.






Definition sample_both_fail
    : string → list string → gmap string string → Result AddressBook :=
  λ _ chunk _,
    if decide (length chunk = 128%nat) then Throw (Failure "first")
    else Throw (Failure "second").

(** ** Strings *)

Lemma append_empty_r (s : string) : s +:+ "" = s.
Proof.
  induction s as [|c s IH]; [done |].
  change (String c (s +:+ "") = String c s). by rewrite IH.
Qed.

Lemma append_length (s t : string) :
  String.length (s +:+ t) = (String.length s + String.length t)%nat.
Proof.
  induction s as [|c s IH]; [done |].
  change (S (String.length (s +:+ t))
          = S (String.length s + String.length t)).
  by rewrite IH.
Qed.

Lemma append_assoc (s t u : string) : (s +:+ t) +:+ u = s +:+ (t +:+ u).
Proof.
  induction s as [|c s IH]; [done |].
  change (String c ((s +:+ t) +:+ u) = String c (s +:+ (t +:+ u))).
  by rewrite IH.
Qed.

Lemma rev_app_rev_app (s t u : string) :
  String.rev_app (String.rev_app s t) u = String.rev_app t (s +:+ u).
Proof.
  revert t. induction s as [|c s IH]; intros t; [done |].
  change (String.rev_app (String.rev_app s (String c t)) u
          = String.rev_app t (String c (s +:+ u))).
  by rewrite IH.
Qed.

Lemma rev_involutive (s : string) : String.rev (String.rev s) = s.
Proof.
  unfold String.rev. rewrite rev_app_rev_app. apply append_empty_r.
Qed.

Lemma all_chars_rev_app P (s t : string) :
  all_chars P (String.rev_app s t) = all_chars P s && all_chars P t.
Proof.
  revert t. induction s as [|c s IH]; intros t; [done |].
  change (all_chars P (String.rev_app s (String c t))
          = P c && all_chars P s && all_chars P t).
  rewrite IH. simpl. by destruct (P c), (all_chars P s).
Qed.

Lemma all_chars_app P (s t : string) :
  all_chars P (s +:+ t) = all_chars P s && all_chars P t.
Proof.
  induction s as [|c s IH]; [done |].
  change (P c && all_chars P (s +:+ t) = P c && all_chars P s && all_chars P t).
  rewrite IH. by destruct (P c).
Qed.

(** ** [BigInt] on decimal numerals *)

Lemma is_decimal_digit_not_white_space c :
  is_decimal_digit c = true → is_white_space c = false.
Proof.
  unfold is_decimal_digit, is_white_space.
  generalize (nat_of_ascii c). intros n.
  rewrite andb_true_iff, !Nat.leb_le. intros [? ?].
  rewrite !orb_false_iff, !Nat.eqb_neq. lia.
Qed.

Lemma trim_start_digits s :
  all_chars is_decimal_digit s = true → trim_start s = s.
Proof.
  destruct s as [|c s]; [done |]. simpl.
  intros [Hc _]%andb_true_iff.
  by rewrite (is_decimal_digit_not_white_space c Hc).
Qed.

Lemma trim_digits s : all_chars is_decimal_digit s = true → trim s = s.
Proof.
  intros Hs. unfold trim. rewrite (trim_start_digits s Hs).
  rewrite trim_start_digits; [apply rev_involutive |].
  unfold String.rev. by rewrite all_chars_rev_app, Hs.
Qed.

Lemma StringToBigInt_digits s :
  all_chars is_decimal_digit s = true → s ≠ "" →
  StringToBigInt s = digits_value 10 0 s.
Proof.
  intros Hs Hne. unfold StringToBigInt. rewrite (trim_digits s Hs).
  destruct s as [|c s]; [done |].
  simpl in Hs. apply andb_true_iff in Hs as [Hc Hs].
  destruct c as [[] [] [] [] [] [] [] []]; try discriminate Hc; try reflexivity.
  destruct s as [|c' s]; [reflexivity |].
  simpl in Hs. apply andb_true_iff in Hs as [Hc' Hs].
  destruct c' as [[] [] [] [] [] [] [] []]; try discriminate Hc'; reflexivity.
Qed.

Lemma digits_value_app radix acc (s t : string) :
  digits_value radix acc (s +:+ t) =
  match digits_value radix acc s with
  | Some a => digits_value radix a t
  | None => None
  end.
Proof.
  revert acc. induction s as [|c s IH]; intros acc; [done |].
  change (digits_value radix acc (String c (s +:+ t))
          = match digits_value radix acc (String c s) with
            | Some a => digits_value radix a t
            | None => None
            end).
  simpl. destruct (digit_value radix c); [apply IH | done].
Qed.

Lemma pretty_N_char_digit (d : N) :
  (d < 10)%N →
  is_decimal_digit (pretty_N_char d) = true ∧
  digit_value 10 (pretty_N_char d) = Some (Z.of_N d).
Proof.
  intros Hd.
  destruct d as [|p]; [done |].
  do 4 (destruct p as [p|p|]; try lia; try done).
Qed.

Lemma pretty_N_go_app (x : N) (s : string) :
  pretty_N_go x s = pretty_N_go x "" +:+ s.
Proof.
  revert s. induction (N.lt_wf_0 x) as [x _ IH]; intros s.
  destruct (decide (x = 0)%N) as [->|Hx]; [by rewrite !pretty_N_go_0 |].
  assert (x `div` 10 < x)%N as Hlt by (apply N.div_lt; lia).
  rewrite !(pretty_N_go_step x) by lia.
  rewrite (IH _ Hlt (String _ s)), (IH _ Hlt (String _ "")).
  by rewrite append_assoc.
Qed.

Lemma pretty_N_go_digits (x : N) :
  all_chars is_decimal_digit (pretty_N_go x "") = true ∧
  digits_value 10 0 (pretty_N_go x "") = Some (Z.of_N x).
Proof.
  induction (N.lt_wf_0 x) as [x _ IH].
  destruct (decide (x = 0)%N) as [->|Hx]; [by rewrite pretty_N_go_0 |].
  rewrite (pretty_N_go_step x), pretty_N_go_app by lia.
  destruct (IH (x `div` 10)%N) as [Hall Hval]; [apply N.div_lt; lia |].
  destruct (pretty_N_char_digit (x `mod` 10)%N) as [Hdigit Hd];
    [apply N.mod_lt; lia |].
  split.
  - rewrite all_chars_app, Hall. simpl. by rewrite Hdigit.
  - rewrite digits_value_app, Hval. simpl. rewrite Hd. f_equal.
    pose proof (N.div_mod x 10). lia.
Qed.

(** [BigInt] reads the decimal numeral of a natural number of any size
    back as that number. *)
Lemma BigInt_decimal (n : N) : BigInt (Some (pretty n)) = Ok (Z.of_N n).
Proof.
  unfold BigInt, pretty, pretty_N.
  destruct (decide (n = 0)%N) as [->|Hn]; [done |].
  destruct (pretty_N_go_digits n) as [Hall Hval].
  rewrite StringToBigInt_digits, Hval; [done | done |].
  rewrite (pretty_N_go_step n), pretty_N_go_app by lia.
  by destruct (pretty_N_go (n `div` 10)%N "").
Qed.

(** ** The exception monad *)

Lemma is_Ok_true {A} (m : Result A) : is_Ok m = true ↔ ∃ a, m = Ok a.
Proof. destruct m; simpl; split; [eauto | done | done | by intros [? ?]]. Qed.

Lemma is_Ok_false {A} (m : Result A) : is_Ok m = false ↔ ∃ e, m = Throw e.
Proof. destruct m; simpl; split; [done | by intros [? ?] | eauto | done]. Qed.

Section ResultLemmas.
Context {A B : Type}.
Implicit Types (f : A → Result B) (l : list A) (ys : list B).

Lemma mapM_nil f : mapM f [] = Ok [].
Proof. reflexivity. Qed.

Lemma mapM_cons f x l :
  mapM f (x :: l) =
  match f x with
  | Ok y => match mapM f l with Ok k => Ok (y :: k) | Throw e => Throw e end
  | Throw e => Throw e
  end.
Proof. simpl. unfold mbind, Result_bind. by destruct (f x). Qed.

Lemma mapM_Ok f l ys :
  mapM f l = Ok ys ↔ Forall2 (λ x y, f x = Ok y) l ys.
Proof.
  revert ys. induction l as [|x l IH]; intros ys.
  - rewrite mapM_nil. split; [intros [= <-]; constructor | by inversion 1].
  - rewrite mapM_cons. split.
    + destruct (f x) as [y|e] eqn:Hx; [|done].
      destruct (mapM f l) as [k|e] eqn:Hl; [|done].
      intros [= <-]. constructor; [done | by apply IH].
    + inversion 1 as [|? y ? k Hy Hk]; subst.
      apply IH in Hk. by rewrite Hy, Hk.
Qed.

(** A [map] whose callback throws stops at the first element that does. *)
Lemma mapM_Throw f l e :
  mapM f l = Throw e ↔
  ∃ l1 x l2, l = l1 ++ x :: l2 ∧ Forall (λ x, is_Ok (f x) = true) l1 ∧
             f x = Throw e.
Proof.
  induction l as [|x l IH].
  - rewrite mapM_nil. split; [done |].
    intros (l1 & x & l2 & Hl & _). by destruct l1.
  - rewrite mapM_cons. split.
    + destruct (f x) as [y|e'] eqn:Hx.
      * destruct (mapM f l) as [k|e''] eqn:Hl; [done |].
        intros [= ->].
        destruct (proj1 IH eq_refl) as (l1 & x' & l2 & -> & Hok & Hthrow).
        exists (x :: l1), x', l2. split_and!; [done | | done].
        constructor; [by rewrite Hx | done].
      * intros [= ->]. exists [], x, l. by split_and!.
    + intros (l1 & x' & l2 & Heq & Hok & Hthrow).
      destruct l1 as [|x1 l1]; simplify_eq/=; [by rewrite Hthrow |].
      inversion Hok as [|? ? Hx1 Hok']; subst.
      apply is_Ok_true in Hx1 as [y ->].
      assert (mapM f (l1 ++ x' :: l2) = Throw e) as ->; [|done].
      apply IH. by exists l1, x', l2.
Qed.

Lemma mapM_Ok_or_Throw f l :
  (∃ ys, mapM f l = Ok ys) ∨ (∃ e, mapM f l = Throw e).
Proof. destruct (mapM f l); eauto. Qed.
End ResultLemmas.

Lemma mapM_id_Ok {A} (rs : list (Result A)) (vs : list A) :
  mapM id rs = Ok vs ↔ rs = Ok <$> vs.
Proof.
  rewrite mapM_Ok. split.
  - induction 1; simplify_eq/=; by f_equal.
  - intros ->. induction vs; constructor; done.
Qed.

(** ** The transaction fetcher *)

Section TransactionFetcher.
Context (stringifyTxId : Z → string → string).
Context (toBase64Address : option string → bool → ApiNetwork → Result string).
Context (TONCOIN_slug : string).
Context (TONHTTPAPI_V3_MAINNET_API_URL TONHTTPAPI_V3_TESTNET_API_URL : string).
Context (getEnvironment : Environment).

Local Abbreviation parseMessage :=
  (parseMessage stringifyTxId toBase64Address TONCOIN_slug).
Local Abbreviation parseRawTransaction :=
  (parseRawTransaction stringifyTxId toBase64Address TONCOIN_slug).
Local Abbreviation callApiV3 :=
  (callApiV3 TONHTTPAPI_V3_MAINNET_API_URL TONHTTPAPI_V3_TESTNET_API_URL
     getEnvironment).
Local Abbreviation fetchTransactions :=
  (fetchTransactions stringifyTxId toBase64Address TONCOIN_slug
     TONHTTPAPI_V3_MAINNET_API_URL TONHTTPAPI_V3_TESTNET_API_URL getEnvironment).

Implicit Types (network : ApiNetwork) (addressBook : AddressBook).
Implicit Types (rawTx : RawTransaction) (msg : RawMessage).
Implicit Types (r : ApiTransactionExtra) (recs : list ApiTransactionExtra).

Lemma get_property_Undefined {A} (obj : gmap string A) (key : string) :
  get_property obj key = Undefined ↔
  obj !! key = None ∧ key ∉ Object_prototype_keys.
Proof.
  unfold get_property. destruct (obj !! key) as [a|].
  - split; [done | by intros [? _]].
  - case_bool_decide as Hin; split; try done.
    + by intros [_ ?].
Qed.

Lemma get_property_own {A} (obj : gmap string A) (key : string) (a : A) :
  get_property obj key = OwnValue a ↔ obj !! key = Some a.
Proof.
  unfold get_property. destruct (obj !! key) as [a'|].
  - split; by intros [= ->].
  - case_bool_decide; by split.
Qed.

Lemma get_property_inherited {A} (obj : gmap string A) (key name : string) :
  get_property obj key = InheritedMember name ↔
  obj !! key = None ∧ key ∈ Object_prototype_keys ∧ name = key.
Proof.
  unfold get_property. destruct (obj !! key) as [a|].
  - split; [done | by intros [? _]].
  - case_bool_decide as Hin; split.
    + by intros [= <-].
    + by intros (_ & _ & ->).
    + done.
    + by intros (_ & ? & _).
Qed.


Lemma user_friendly_of_Throw addressBook key e :
  user_friendly_of addressBook key = Throw e ↔
  get_property addressBook (toPropertyKey key) = Undefined ∧ e = TypeError.
Proof.
  unfold user_friendly_of.
  destruct (get_property addressBook (toPropertyKey key)); split;
    first [done | by intros [? ?] | by intros [= <-] | by intros [_ ->]].
Qed.

(** What a record that the callback returns is made of. *)
Lemma parseMessage_Ok network addressBook rawTx incoming count i msg r :
  parseMessage network addressBook rawTx incoming count i msg = Ok r ↔
  ∃ from to normalized v f,
    user_friendly_of addressBook (source msg) = Ok from ∧
    user_friendly_of addressBook (destination msg) = Ok to ∧
    toBase64Address (if incoming then source msg else destination msg)
      true network = Ok normalized ∧
    BigInt (value msg) = Ok v ∧
    BigInt (total_fees rawTx) = Ok f ∧
    r = {| txId :=
             if decide (1 < count)%nat
             then stringifyTxId (tx_lt rawTx) (tx_hash rawTx) +:+ ":"
                    +:+ pretty (i + 1)%nat
             else stringifyTxId (tx_lt rawTx) (tx_hash rawTx);
           timestamp := now rawTx * 1000;
           isIncoming := incoming;
           fromAddress := from;
           toAddress := to;
           amount := if incoming then v else - v;
           slug := TONCOIN_slug;
           fee := f;
           inMsgHash := msg_hash (in_msg rawTx);
           normalizedAddress := normalized;
           shouldHide :=
             if truthy_number (exit_code (compute_ph (description rawTx)))
             then Some true else None;
           extraData := {| extra_body := getRawBody msg |} |}.
Proof.
  unfold parseMessage, mbind, Result_bind.
  destruct (user_friendly_of addressBook (source msg)) as [from|];
    [|split; [done | by intros (? & ? & ? & ? & ? & ? & _)]].
  destruct (user_friendly_of addressBook (destination msg)) as [to|];
    [|split; [done | by intros (? & ? & ? & ? & ? & _ & ? & _)]].
  destruct (toBase64Address _ true network) as [normalized|];
    [|split; [done | by intros (? & ? & ? & ? & ? & _ & _ & ? & _)]].
  destruct (BigInt (value msg)) as [v|];
    [|split; [done | by intros (? & ? & ? & ? & ? & _ & _ & _ & ? & _)]].
  destruct (BigInt (total_fees rawTx)) as [f|];
    [|split; [done | by intros (? & ? & ? & ? & ? & _ & _ & _ & _ & ? & _)]].
  split.
  - intros [= <-]. by exists from, to, normalized, v, f.
  - intros (? & ? & ? & ? & ? & [= <-] & [= <-] & [= <-] & [= <-] & [= <-] & ->).
    done.
Qed.

Lemma parseMessage_is_Ok network addressBook rawTx incoming count i msg :
  is_Ok (parseMessage network addressBook rawTx incoming count i msg)
  = messageParses toBase64Address network addressBook rawTx incoming msg.
Proof.
  unfold parseMessage, messageParses, mbind, Result_bind.
  destruct (user_friendly_of addressBook (source msg)) as [from|]; simpl;
    [|done].
  destruct (user_friendly_of addressBook (destination msg)) as [to|]; simpl;
    [|done].
  destruct (toBase64Address _ true network); simpl; [|done].
  destruct (BigInt (value msg)); simpl; [|done].
  by destruct (BigInt (total_fees rawTx)).
Qed.


Lemma parseRawTransaction_unfold network rawTx addressBook :
  parseRawTransaction network rawTx addressBook =
  mapM id
    (imap (parseMessage network addressBook rawTx
             (truthy_string (source (in_msg rawTx)))
             (length (relevantMessages rawTx)))
       (relevantMessages rawTx)).
Proof.
  unfold parseRawTransaction. case_decide as Hlen; [|done].
  apply nil_length_inv in Hlen. by rewrite Hlen.
Qed.

Lemma parseRawTransaction_Ok network rawTx addressBook recs :
  parseRawTransaction network rawTx addressBook = Ok recs ↔
  length recs = length (relevantMessages rawTx) ∧
  ∀ i r, recs !! i = Some r →
    ∃ msg, relevantMessages rawTx !! i = Some msg ∧
      parseMessage network addressBook rawTx
        (truthy_string (source (in_msg rawTx)))
        (length (relevantMessages rawTx)) i msg = Ok r.
Proof.
  rewrite parseRawTransaction_unfold, mapM_id_Ok.
  set (g := parseMessage _ _ _ _ _). split.
  - intros Heq. split.
    + apply (f_equal length) in Heq.
      by rewrite length_imap, length_fmap in Heq.
    + intros i r Hr.
      apply (f_equal (λ l, l !! i)) in Heq.
      rewrite list_lookup_imap, list_lookup_fmap, Hr in Heq.
      destruct (relevantMessages rawTx !! i) as [msg|]; simplify_eq/=.
      by exists msg.
  - intros [Hlen Hrecs]. apply list_eq. intros i.
    rewrite list_lookup_imap, list_lookup_fmap.
    destruct (recs !! i) as [r|] eqn:Hr; simpl.
    + destruct (Hrecs i r Hr) as (msg & -> & Hmsg). simpl. by f_equal.
    + apply lookup_ge_None in Hr. rewrite Hlen in Hr.
      apply lookup_ge_None in Hr. by rewrite Hr.
Qed.

Lemma fetchTransactions_unfold
    (fetchJson : string → TransactionsQuery → gmap string string
                 → Result TransactionsPage) options data :
  callApiV3 fetchJson (network options) "/transactions"
    (transactionsQuery options) = Ok data →
  fetchTransactions fetchJson options =
  match mapM (λ rawTx, parseRawTransaction (network options) rawTx
                         (address_book data)) (transactions data) with
  | Ok parsed => Ok (concat parsed)
  | Throw e => Throw e
  end.
Proof.
  intros Hcall. unfold fetchTransactions. rewrite Hcall.
  unfold mbind at 1, Result_bind at 1. case_decide as Hlen; [|done].
  apply nil_length_inv in Hlen. by rewrite Hlen.
Qed.

Lemma fetchTransactions_Ok
    (fetchJson : string → TransactionsQuery → gmap string string
                 → Result TransactionsPage) options data recs :
  callApiV3 fetchJson (network options) "/transactions"
    (transactionsQuery options) = Ok data →
  fetchTransactions fetchJson options = Ok recs ↔
  ∃ parsed, recs = concat parsed ∧
    Forall2 (λ rawTx rs,
        parseRawTransaction (network options) rawTx (address_book data) = Ok rs)
      (transactions data) parsed.
Proof.
  intros Hcall. rewrite (fetchTransactions_unfold _ _ _ Hcall).
  destruct (mapM _ (transactions data)) as [parsed|e] eqn:Hmap.
  - split.
    + intros [= <-]. exists parsed. split; [done |].
      apply mapM_Ok in Hmap. exact Hmap.
    + intros (parsed' & -> & Hall). apply mapM_Ok in Hall. congruence.
  - split; [done |]. intros (parsed & _ & Hall).
    apply mapM_Ok in Hall. congruence.
Qed.

(** Every field of a record that [parseRawTransaction] returns, in terms of
    the event and of the message at the same position. *)
Lemma parseRawTransaction_fields network rawTx addressBook recs i r :
  parseRawTransaction network rawTx addressBook = Ok recs →
  recs !! i = Some r →
  ∃ msg v,
    relevantMessages rawTx !! i = Some msg ∧
    BigInt (value msg) = Ok v ∧
    txId r =
      (if decide (1 < length (relevantMessages rawTx))%nat
       then stringifyTxId (tx_lt rawTx) (tx_hash rawTx) +:+ ":"
              +:+ pretty (i + 1)%nat
       else stringifyTxId (tx_lt rawTx) (tx_hash rawTx)) ∧
    timestamp r = now rawTx * 1000 ∧
    isIncoming r = truthy_string (source (in_msg rawTx)) ∧
    user_friendly_of addressBook (source msg) = Ok (fromAddress r) ∧
    user_friendly_of addressBook (destination msg) = Ok (toAddress r) ∧
    amount r = (if truthy_string (source (in_msg rawTx)) then v else - v) ∧
    slug r = TONCOIN_slug ∧
    BigInt (total_fees rawTx) = Ok (fee r) ∧
    inMsgHash r = msg_hash (in_msg rawTx) ∧
    toBase64Address
      (if truthy_string (source (in_msg rawTx)) then source msg
       else destination msg) true network = Ok (normalizedAddress r) ∧
    shouldHide r =
      (if truthy_number (exit_code (compute_ph (description rawTx)))
       then Some true else None) ∧
    extra_body (extraData r) = getRawBody msg.
Proof.
  intros Hparse Hr.
  apply parseRawTransaction_Ok in Hparse as [_ Hrecs].
  destruct (Hrecs i r Hr) as (msg & Hmsg & Hcb).
  apply parseMessage_Ok in Hcb
    as (from & to & normalized & v & f & Hfrom & Hto & Hnorm & Hv & Hf & ->).
  exists msg, v. simpl. by split_and!.
Qed.

Lemma parseRawTransaction_length network rawTx addressBook recs :
  parseRawTransaction network rawTx addressBook = Ok recs →
  length recs = length (relevantMessages rawTx).
Proof. intros Hparse. by apply parseRawTransaction_Ok in Hparse as [? _]. Qed.

(** [parseRawTransaction] returns exactly when the callback returns on every
    relevant message. *)
Lemma parseRawTransaction_is_Ok network rawTx addressBook :
  is_Ok (parseRawTransaction network rawTx addressBook) = true ↔
  Forall (λ msg,
      messageParses toBase64Address network addressBook rawTx
        (truthy_string (source (in_msg rawTx))) msg = true)
    (relevantMessages rawTx).
Proof.
  rewrite parseRawTransaction_unfold.
  set (g := parseMessage _ _ _ _ _).
  rewrite is_Ok_true. split.
  - intros [recs Hrecs]. apply mapM_id_Ok in Hrecs.
    apply Forall_lookup. intros i msg Hmsg.
    apply (f_equal (λ l, l !! i)) in Hrecs.
    rewrite list_lookup_imap, list_lookup_fmap, Hmsg in Hrecs. simpl in Hrecs.
    rewrite <- (parseMessage_is_Ok _ _ _ _ (length (relevantMessages rawTx)) i).
    fold g. destruct (recs !! i); simplify_eq/=. by rewrite Hrecs.
  - intros Hall.
    destruct (mapM id (imap g (relevantMessages rawTx))) as [recs|e] eqn:Hmap;
      [by exists recs |].
    apply mapM_Throw in Hmap as (l1 & x & l2 & Heq & _ & Hx). simpl in Hx.
    assert (x ∈ imap g (relevantMessages rawTx)) as Hin.
    { rewrite Heq. apply elem_of_app. right. by left. }
    apply elem_of_lookup_imap in Hin as (i & msg & -> & Hmsg).
    rewrite Forall_lookup in Hall. specialize (Hall i msg Hmsg).
    rewrite <- (parseMessage_is_Ok _ _ _ _ (length (relevantMessages rawTx)) i)
      in Hall.
    fold g in Hall. by rewrite Hx in Hall.
Qed.


(** *** Identifiers of the records of one event *)

(** C1, as the code has it: of an event with [k] relevant messages
    [fetchTransactions] returns [k] records; when [k = 1] the record's id is
    the base id [stringifyTxId {lt, hash}]; when [k > 1] the record at
    position [i] (from 0) has the id [base:i+1] at every position, the
    first one included, whose id is [base:1]. *)
Theorem txId_numbering
    (fetchJson : string → TransactionsQuery → gmap string string
                 → Result TransactionsPage) options data recs :
  callApiV3 fetchJson (network options) "/transactions"
    (transactionsQuery options) = Ok data →
  fetchTransactions fetchJson options = Ok recs →
  ∃ parsed, recs = concat parsed ∧
    Forall2 (λ rawTx rs,
        let base := stringifyTxId (tx_lt rawTx) (tx_hash rawTx) in
        let k := length (relevantMessages rawTx) in
        length rs = k ∧
        (k = 1%nat → ∀ r, r ∈ rs → txId r = base) ∧
        ((1 < k)%nat → ∀ i r, rs !! i = Some r →
           txId r = base +:+ ":" +:+ pretty (i + 1)%nat))
      (transactions data) parsed.
Proof.
  intros Hcall Hfetch.
  apply (fetchTransactions_Ok _ _ _ _ Hcall) in Hfetch as (parsed & -> & Hall).
  exists parsed. split; [done |].
  eapply Forall2_impl; [exact Hall |].
  intros rawTx rs Hparse. cbv zeta. split_and!.
  - exact (parseRawTransaction_length _ _ _ _ Hparse).
  - intros Hk r [i Hr]%list_elem_of_lookup.
    destruct (parseRawTransaction_fields _ _ _ _ _ _ Hparse Hr)
      as (msg & v & _ & _ & -> & _).
    case_decide; [lia | done].
  - intros Hk i r Hr.
    destruct (parseRawTransaction_fields _ _ _ _ _ _ Hparse Hr)
      as (msg & v & _ & _ & -> & _).
    case_decide; [done | lia].
Qed.

(** *** One record per relevant message *)

(** C2: once the service has answered, no event gives no record and no
    error; an event without relevant messages gives no record; and in every
    result of [fetchTransactions] each event contributes, in order, one
    record per relevant message, all with the timestamp [now * 1000], the fee
    of the event and an id that starts with the base id.  The result exists
    as soon as the callback returns on every message. *)
Theorem one_record_per_message
    (fetchJson : string → TransactionsQuery → gmap string string
                 → Result TransactionsPage) options data :
  callApiV3 fetchJson (network options) "/transactions"
    (transactionsQuery options) = Ok data →
  (transactions data = [] → fetchTransactions fetchJson options = Ok []) ∧
  (∀ rawTx, relevantMessages rawTx = [] →
     parseRawTransaction (network options) rawTx (address_book data) = Ok []) ∧
  (∀ recs, fetchTransactions fetchJson options = Ok recs →
     ∃ parsed, recs = concat parsed ∧
       Forall2 (λ rawTx rs,
           length rs = length (relevantMessages rawTx) ∧
           Forall (λ r,
               timestamp r = now rawTx * 1000 ∧
               BigInt (total_fees rawTx) = Ok (fee r) ∧
               ∃ suffix,
                 txId r = stringifyTxId (tx_lt rawTx) (tx_hash rawTx) +:+ suffix)
             rs)
         (transactions data) parsed) ∧
  (Forall (λ rawTx,
       Forall (λ msg,
           messageParses toBase64Address (network options) (address_book data)
             rawTx (truthy_string (source (in_msg rawTx))) msg = true)
         (relevantMessages rawTx))
     (transactions data) →
   ∃ recs, fetchTransactions fetchJson options = Ok recs).
Proof.
  intros Hcall. split_and!.
  - intros Hnil. rewrite (fetchTransactions_unfold _ _ _ Hcall), Hnil. done.
  - intros rawTx Hnil. rewrite parseRawTransaction_unfold, Hnil. done.
  - intros recs Hfetch.
    apply (fetchTransactions_Ok _ _ _ _ Hcall) in Hfetch as (parsed & -> & Hall).
    exists parsed. split; [done |].
    eapply Forall2_impl; [exact Hall |].
    intros rawTx rs Hparse. cbv beta. split.
    + exact (parseRawTransaction_length _ _ _ _ Hparse).
    + apply Forall_lookup. intros i r Hr.
      destruct (parseRawTransaction_fields _ _ _ _ _ _ Hparse Hr)
        as (msg & v & _ & _ & Hid & Hts & _ & _ & _ & _ & _ & Hfee & _).
      split_and!; [done | done |]. rewrite Hid.
      case_decide; [by eexists | by exists ""; rewrite append_empty_r ].
  - intros Hall. rewrite (fetchTransactions_unfold _ _ _ Hcall).
    destruct (mapM _ (transactions data)) as [parsed|e] eqn:Hmap; [by eexists |].
    apply mapM_Throw in Hmap as (l1 & rawTx & l2 & Heq & _ & Hthrow).
    rewrite Heq in Hall.
    apply Forall_app in Hall as [_ [Hparses _]%Forall_cons].
    apply parseRawTransaction_is_Ok in Hparses. by rewrite Hthrow in Hparses.
Qed.

(** *** An endpoint that the inline address book lacks *)




(** *** Direction of an event *)

Lemma truthy_string_false (s : option string) :
  truthy_string s = false ↔ s = None ∨ s = Some "".
Proof.
  destruct s as [s|]; simpl.
  - rewrite negb_false_iff, String.eqb_eq.
    split; [intros ->; by right | by intros [?|[= ->]]].
  - split; [by left | done].
Qed.

Lemma truthy_string_true (s : option string) :
  truthy_string s = true ↔ ∃ t, s = Some t ∧ t ≠ "".
Proof.
  destruct s as [s|]; simpl.
  - rewrite negb_true_iff, String.eqb_neq.
    split; [intros ?; by exists s | by intros (t & [= ->] & ?)].
  - split; [done | by intros (t & ? & _)].
Qed.

(** C5: an event whose inbound message has no source ([null] or the empty
    string) is outgoing: it is parsed exactly when the callback returns on
    every one of its outbound messages, and its records are then those of
    its outbound messages, position by position, each of them outgoing.  An
    event whose inbound message has a source is incoming: it is parsed
    exactly when the callback returns on that one message, it then gives the
    one record of that message, and its outbound list is not read:
    replacing it changes nothing. *)
Theorem direction_by_inbound_source network rawTx addressBook :
  (source (in_msg rawTx) = None ∨ source (in_msg rawTx) = Some "" →
   relevantMessages rawTx = out_msgs rawTx ∧
   (is_Ok (parseRawTransaction network rawTx addressBook) = true ↔
    Forall (λ msg,
        messageParses toBase64Address network addressBook rawTx false msg
        = true)
      (out_msgs rawTx)) ∧
   ∀ recs, parseRawTransaction network rawTx addressBook = Ok recs →
     length recs = length (out_msgs rawTx) ∧
     ∀ i r, recs !! i = Some r →
       isIncoming r = false ∧
       ∃ msg v, out_msgs rawTx !! i = Some msg ∧
         user_friendly_of addressBook (source msg) = Ok (fromAddress r) ∧
         user_friendly_of addressBook (destination msg) = Ok (toAddress r) ∧
         toBase64Address (destination msg) true network
         = Ok (normalizedAddress r) ∧
         BigInt (value msg) = Ok v ∧ amount r = - v ∧
         extra_body (extraData r) = getRawBody msg) ∧
  (∀ s, source (in_msg rawTx) = Some s → s ≠ "" →
   relevantMessages rawTx = [in_msg rawTx] ∧
   (is_Ok (parseRawTransaction network rawTx addressBook) = true ↔
    messageParses toBase64Address network addressBook rawTx true
      (in_msg rawTx) = true) ∧
   (∀ recs, parseRawTransaction network rawTx addressBook = Ok recs →
      ∃ r v, recs = [r] ∧ isIncoming r = true ∧
        user_friendly_of addressBook (Some s) = Ok (fromAddress r) ∧
        user_friendly_of addressBook (destination (in_msg rawTx))
          = Ok (toAddress r) ∧
        toBase64Address (Some s) true network = Ok (normalizedAddress r) ∧
        BigInt (value (in_msg rawTx)) = Ok v ∧ amount r = v ∧
        extra_body (extraData r) = getRawBody (in_msg rawTx)) ∧
   (∀ outs, parseRawTransaction network (with_out_msgs rawTx outs) addressBook
            = parseRawTransaction network rawTx addressBook)).
Proof.
  split.
  - intros Hsrc%truthy_string_false.
    assert (relevantMessages rawTx = out_msgs rawTx) as Hrel
      by (unfold relevantMessages; by rewrite Hsrc).
    split_and!; [done | |].
    + rewrite parseRawTransaction_is_Ok. by rewrite Hsrc, Hrel.
    + intros recs Hparse. split.
      * rewrite <- Hrel. exact (parseRawTransaction_length _ _ _ _ Hparse).
      * intros i r Hr.
        destruct (parseRawTransaction_fields _ _ _ _ _ _ Hparse Hr)
          as (msg & v & Hmsg & Hv & _ & _ & Hin & Hfrom & Hto & Ham & _ & _ & _
              & Hnorm & _ & Hbody).
        rewrite Hsrc in Hin, Ham, Hnorm. rewrite Hrel in Hmsg.
        split; [done |]. by exists msg, v.
  - intros s Hs Hne.
    assert (truthy_string (source (in_msg rawTx)) = true) as Hsrc
      by (apply truthy_string_true; eauto).
    assert (relevantMessages rawTx = [in_msg rawTx]) as Hrel
      by (unfold relevantMessages; by rewrite Hsrc).
    split_and!; [done | | |].
    + rewrite parseRawTransaction_is_Ok, Hsrc, Hrel.
      split; [by intros [? _]%Forall_cons | intros ?; by repeat constructor].
    + intros recs Hparse.
      pose proof (parseRawTransaction_length _ _ _ _ Hparse) as Hlen.
      rewrite Hrel in Hlen.
      destruct recs as [|r [|]]; simplify_eq/=.
      destruct (parseRawTransaction_fields _ _ _ _ 0%nat r Hparse eq_refl)
        as (msg & v & Hmsg & Hv & _ & _ & Hin & Hfrom & Hto & Ham & _ & _ & _
            & Hnorm & _ & Hbody).
      rewrite Hsrc in Hin, Ham, Hnorm. rewrite Hrel in Hmsg.
      injection Hmsg as <-. rewrite Hs in Hfrom, Hnorm. by exists r, v.
    + intros outs. unfold parseRawTransaction, relevantMessages. simpl.
      by rewrite Hsrc.
Qed.

(** *** Amounts *)

(** C6, as the code has it: the amount of a record is [BigInt(value)] of
    the message at its position for an incoming record and its negation for
    an outgoing one, an integer of any size; so its absolute value is that of
    the message value, it is positive (incoming) or negative (outgoing) when
    the value is positive, and it is zero when the value is zero.  A value
    that is the decimal numeral of [n] is read as [n] whatever its size. *)
Theorem amount_sign_and_magnitude network rawTx addressBook recs i r :
  parseRawTransaction network rawTx addressBook = Ok recs →
  recs !! i = Some r →
  ∃ msg v,
    relevantMessages rawTx !! i = Some msg ∧
    BigInt (value msg) = Ok v ∧
    amount r = (if isIncoming r then v else - v) ∧
    Z.abs (amount r) = Z.abs v ∧
    (0 < v → if isIncoming r then 0 < amount r else amount r < 0) ∧
    (v = 0 → amount r = 0) ∧
    (∀ n : N, value msg = Some (pretty n) → v = Z.of_N n).
Proof.
  intros Hparse Hr.
  destruct (parseRawTransaction_fields _ _ _ _ _ _ Hparse Hr)
    as (msg & v & Hmsg & Hv & _ & _ & Hin & _ & _ & Ham & _).
  exists msg, v. rewrite Hin, Ham.
  split_and!; [done | done | done | | | |].
  - destruct (truthy_string (source (in_msg rawTx))); lia.
  - destruct (truthy_string (source (in_msg rawTx))); lia.
  - destruct (truthy_string (source (in_msg rawTx))); lia.
  - intros n Hn. rewrite Hn, BigInt_decimal in Hv. by injection Hv.
Qed.

End TransactionFetcher.

(** ** Time bounds of the query *)

Lemma msToSec_floor (ms : Z) :
  1000 * msToSec ms ≤ ms < 1000 * msToSec ms + 1000.
Proof.
  unfold msToSec.
  pose proof (Z.div_mod ms 1000). pose proof (Z.mod_pos_bound ms 1000). lia.
Qed.

Lemma msToSec_nonneg_quot (ms : Z) : 0 ≤ ms → msToSec ms = ms ÷ 1000.
Proof. intros Hms. unfold msToSec. by rewrite Z.quot_div_nonneg by lia. Qed.

Lemma and_then_nonzero (ms : Z) (f : Z → Z) :
  ms ≠ 0 → and_then (Some ms) f = Some (f ms).
Proof.
  intros Hms. unfold and_then, truthy_number.
  by destruct (Z.eqb_spec ms 0).
Qed.

(** C3, as the code has it: a bound that is left out stays unset; a bound
    [ms] other than 0 is converted by [msToSec], the floor of [ms / 1000]
    (the quotient rounded down, which is the truncated quotient when [ms] is
    not negative), and when the bound is not included ([includeFrom],
    [includeTo] false or left out) the lower bound is that value plus one
    and the upper bound that value minus one. *)
Theorem time_bounds_in_seconds options :
  (fromTimestamp options = None →
   start_utime (transactionsQuery options) = None) ∧
  (toTimestamp options = None →
   end_utime (transactionsQuery options) = None) ∧
  (∀ ms, fromTimestamp options = Some ms → ms ≠ 0 →
     start_utime (transactionsQuery options) =
       Some (if truthy_bool (shouldIncludeFrom options) then msToSec ms
             else msToSec ms + 1)) ∧
  (∀ ms, toTimestamp options = Some ms → ms ≠ 0 →
     end_utime (transactionsQuery options) =
       Some (if truthy_bool (shouldIncludeTo options) then msToSec ms
             else msToSec ms - 1)) ∧
  (∀ ms, 1000 * msToSec ms ≤ ms < 1000 * msToSec ms + 1000 ∧
         (0 ≤ ms → msToSec ms = ms ÷ 1000)).
Proof.
  unfold transactionsQuery; simpl. split_and!.
  - by intros ->.
  - by intros ->.
  - intros ms -> Hms. rewrite and_then_nonzero by done.
    destruct (truthy_bool (shouldIncludeFrom options)); simpl; f_equal; lia.
  - intros ms -> Hms. rewrite and_then_nonzero by done.
    destruct (truthy_bool (shouldIncludeTo options)); simpl; f_equal; lia.
  - intros ms. split; [apply msToSec_floor | apply msToSec_nonneg_quot].
Qed.

(** C10, as the code has it: a bound equal to 0 is the value of the
    conjunction [bound && ...], so the query carries [start_utime] (or
    [end_utime]) 0, not an unset parameter, and no shift is applied to it,
    whatever the inclusion flag is. *)
Theorem zero_bound_passed_as_zero options :
  (fromTimestamp options = Some 0 →
   start_utime (transactionsQuery options) = Some 0) ∧
  (toTimestamp options = Some 0 →
   end_utime (transactionsQuery options) = Some 0).
Proof. unfold transactionsQuery; simpl. split; by intros ->. Qed.

(** ** Batches *)

Section Split.
Context {A : Type}.
Implicit Types (array : list A) (chunkSize fuel : nat).

Lemma split_go_concat fuel array chunkSize :
  (0 < chunkSize)%nat → (length array ≤ fuel)%nat →
  concat (split_go fuel array chunkSize) = array.
Proof.
  intros Hsize. revert array.
  induction fuel as [|fuel IH]; intros array Hfuel.
  - destruct array; [done | simpl in Hfuel; lia].
  - destruct array as [|x array]; [done |].
    change (split_go (S fuel) (x :: array) chunkSize)
      with (take chunkSize (x :: array)
              :: split_go fuel (drop chunkSize (x :: array)) chunkSize).
    rewrite concat_cons, IH, take_drop; [done |].
    rewrite length_drop. simpl in *. lia.
Qed.



Lemma split_concat array chunkSize :
  (0 < chunkSize)%nat → concat (split array chunkSize) = array.
Proof. intros. by apply split_go_concat. Qed.



End Split.

(** ** [Promise.all] *)

Section PromiseAll.
Context {A : Type}.
Implicit Types (settled : list (Result A)) (order : list nat) (vs : list A).

Lemma first_rejection_Some settled order e :
  first_rejection settled order = Some e → Throw e ∈ settled.
Proof.
  induction order as [|i order IH]; simpl; [done |].
  destruct (settled !! i) as [[v|e']|] eqn:Hi; [done | | done].
  intros [= ->]. by eapply list_elem_of_lookup_2.
Qed.

Lemma first_rejection_fulfilled vs order :
  first_rejection (Ok <$> vs) order = None.
Proof.
  induction order as [|i order IH]; simpl; [done |].
  rewrite list_lookup_fmap. by destruct (vs !! i).
Qed.

Lemma first_rejection_None settled order i e :
  first_rejection settled order = None → i ∈ order →
  settled !! i ≠ Some (Throw e).
Proof.
  induction order as [|j order IH]; simpl; [by inversion 2 |].
  intros Hnone Hin Hi.
  destruct (decide (i = j)) as [->|Hne].
  - by rewrite Hi in Hnone.
  - apply elem_of_cons in Hin as [?|Hin]; [done |].
    destruct (settled !! j) as [[v|e']|]; [|done|]; by eapply IH.
Qed.

(** The combined promise is fulfilled exactly when every promise is. *)
Lemma Promise_all_Ok order settled vs :
  Promise_all order settled = Ok vs ↔ settled = Ok <$> vs.
Proof.
  unfold Promise_all. split.
  - destruct (first_rejection settled _); [done |]. by intros ?%mapM_id_Ok.
  - intros ->. rewrite first_rejection_fulfilled. by apply mapM_id_Ok.
Qed.

(** It rejects with the reason of one of the promises that reject. *)
Lemma Promise_all_Throw order settled e :
  Promise_all order settled = Throw e → Throw e ∈ settled.
Proof.
  unfold Promise_all.
  destruct (first_rejection settled _) as [e'|] eqn:Hfirst.
  - intros [= <-]. by eapply first_rejection_Some.
  - intros (l1 & x & l2 & -> & _ & Hx)%mapM_Throw. simpl in Hx. subst x.
    apply elem_of_app. right. by left.
Qed.

Lemma Promise_all_rejects order settled e :
  Throw e ∈ settled → ∃ e', Promise_all order settled = Throw e'.
Proof.
  intros Hin. destruct (Promise_all order settled) as [vs|e'] eqn:Hall;
    [|by eexists].
  apply Promise_all_Ok in Hall as ->.
  by apply list_elem_of_fmap in Hin as (v & ? & _).
Qed.

(** It rejects with the reason of the promise that rejects first in the
    order of settlement. *)
Lemma first_rejection_first settled before i after e :
  (∀ j, j ∈ before → ∀ e0, settled !! j ≠ Some (Throw e0)) →
  settled !! i = Some (Throw e) →
  first_rejection settled (before ++ i :: after) = Some e.
Proof.
  intros Hbefore Hi. induction before as [|j before IH]; simpl.
  - by rewrite Hi.
  - destruct (settled !! j) as [[v|e0]|] eqn:Hj.
    + apply IH. intros k Hk. apply Hbefore. by right.
    + by destruct (Hbefore j (list_elem_of_here _ _) e0).
    + apply IH. intros k Hk. apply Hbefore. by right.
Qed.

Lemma Promise_all_first order settled before i after e :
  order = before ++ i :: after →
  (∀ j, j ∈ before → ∀ e0, settled !! j ≠ Some (Throw e0)) →
  settled !! i = Some (Throw e) →
  Promise_all order settled = Throw e.
Proof.
  intros -> Hbefore Hi. unfold Promise_all.
  rewrite <- app_assoc, <- app_comm_cons.
  by rewrite (first_rejection_first _ _ _ _ _ Hbefore Hi).
Qed.

End PromiseAll.

(** ** The address resolver *)

Section AddressResolver.
Context (TONHTTPAPI_V3_MAINNET_API_URL TONHTTPAPI_V3_TESTNET_API_URL : string).
Context (getEnvironment : Environment).

Local Abbreviation callApiV3 :=
  (callApiV3 TONHTTPAPI_V3_MAINNET_API_URL TONHTTPAPI_V3_TESTNET_API_URL
     getEnvironment).
Local Abbreviation addressBookCalls :=
  (addressBookCalls TONHTTPAPI_V3_MAINNET_API_URL
     TONHTTPAPI_V3_TESTNET_API_URL getEnvironment).
Local Abbreviation fetchAddressBook :=
  (fetchAddressBook TONHTTPAPI_V3_MAINNET_API_URL
     TONHTTPAPI_V3_TESTNET_API_URL getEnvironment).
Local Abbreviation fixAddressFormat :=
  (fixAddressFormat TONHTTPAPI_V3_MAINNET_API_URL
     TONHTTPAPI_V3_TESTNET_API_URL getEnvironment).

Implicit Types (network : ApiNetwork) (addresses chunk : list string).
Implicit Types (order : list nat) (books : list AddressBook).




(** C7, as the code has it: once the service has answered,
    [fixAddressFormat] does not fail.  It returns the entry that the
    answer's address book has under exactly the input address; when the book
    has no such entry it returns [undefined], or, for an address that is the
    name of a member every object inherits ([constructor], [toString], ...),
    that member.  It fails only as the call itself fails, with that error. *)
Theorem fixAddressFormat_reads_entry
    (fetchJson : string → string → gmap string string → Result AddressBookReply)
    network (address : string) :
  (∀ result,
     callApiV3 fetchJson network "/addressBook" address = Ok result →
     (∀ friendly, reply_address_book result !! address = Some friendly →
        fixAddressFormat fetchJson network address = Ok (OwnValue friendly)) ∧
     (reply_address_book result !! address = None →
      address ∉ Object_prototype_keys →
      fixAddressFormat fetchJson network address = Ok Undefined) ∧
     (reply_address_book result !! address = None →
      address ∈ Object_prototype_keys →
      fixAddressFormat fetchJson network address
      = Ok (InheritedMember address))) ∧
  (∀ e, callApiV3 fetchJson network "/addressBook" address = Throw e →
     fixAddressFormat fetchJson network address = Throw e).
Proof.
  unfold fixAddressFormat. split.
  - intros result ->. unfold mbind, Result_bind. split_and!.
    + intros friendly Hown. by rewrite (proj2 (get_property_own _ _ _) Hown).
    + intros Hnone Hout.
      by rewrite (proj2 (get_property_Undefined _ _) (conj Hnone Hout)).
    + intros Hnone Hin.
      by rewrite (proj2 (get_property_inherited _ _ address)
                    (conj Hnone (conj Hin eq_refl))).
  - by intros e ->.
Qed.


(** C9, as the code has it: when a batch call fails, [fetchAddressBook]
    fails, in whatever order the calls settle, and nothing merged is
    returned.  Its error is the error of the batch call that fails first in
    the order of settlement: the error of a batch call that failed, and the
    error of the given one when no batch fails with another error. *)
Theorem batch_failure_fails_all
    (fetchJson : string → list string → gmap string string → Result AddressBook)
    order network addresses chunk e :
  chunk ∈ split addresses ADDRESS_BOOK_CHUNK_SIZE →
  callApiV3 fetchJson network "/addressBook" chunk = Throw e →
  ∃ e',
    fetchAddressBook fetchJson order network addresses = Throw e' ∧
    (∃ chunk', chunk' ∈ split addresses ADDRESS_BOOK_CHUNK_SIZE ∧
       callApiV3 fetchJson network "/addressBook" chunk' = Throw e') ∧
    ((∀ chunk' e'', chunk' ∈ split addresses ADDRESS_BOOK_CHUNK_SIZE →
        callApiV3 fetchJson network "/addressBook" chunk' = Throw e'' →
        e'' = e) →
     e' = e) ∧
    (∀ before i after e1,
       order = before ++ i :: after →
       (∀ j, j ∈ before → ∀ e0,
          addressBookCalls fetchJson network addresses !! j
          ≠ Some (Throw e0)) →
       addressBookCalls fetchJson network addresses !! i = Some (Throw e1) →
       e' = e1).
Proof.
  intros Hchunk Hcall.
  assert (Throw e ∈ addressBookCalls fetchJson network addresses) as Hin.
  { unfold addressBookCalls. apply list_elem_of_fmap. by exists chunk. }
  destruct (Promise_all_rejects order _ _ Hin) as [e' Hall].
  exists e'.
  assert (∃ chunk', chunk' ∈ split addresses ADDRESS_BOOK_CHUNK_SIZE ∧
            callApiV3 fetchJson network "/addressBook" chunk' = Throw e')
    as (chunk' & Hchunk' & Hcall').
  { pose proof (Promise_all_Throw _ _ _ Hall) as Hthrown.
    unfold addressBookCalls in Hthrown.
    apply list_elem_of_fmap in Hthrown as (chunk' & ? & ?). by exists chunk'. }
  split_and!.
  - unfold fetchAddressBook. by rewrite Hall.
  - by exists chunk'.
  - intros Hsame. by eapply Hsame.
  - intros before i after e1 Horder Hbefore Hi.
    rewrite (Promise_all_first _ _ _ _ _ _ Horder Hbefore Hi) in Hall.
    by injection Hall.
Qed.

End AddressResolver.

(** ** The statements on the sample inputs *)

(** The spec's wording of C1 fails on the event with two outbound messages:
    its first record has the id [5:H:1], not the base id [5:H]. *)
Lemma first_of_two_outputs_is_suffixed :
  ∃ r0 r1,
    sample_parseRawTransaction sample_outgoing sample_book = Ok [r0; r1] ∧
    length (relevantMessages sample_outgoing) = 2%nat ∧
    txId r0 = "5:H:1" ∧
    txId r0 ≠ sample_stringifyTxId (tx_lt sample_outgoing) (tx_hash sample_outgoing).
Proof.
  eexists _, _. split_and!; [vm_compute; reflexivity | reflexivity
                            | reflexivity | vm_compute; discriminate].
Defined.

Lemma txId_numbering_witness :
  sample_callApiV3 (sample_transactions sample_page) (network sample_options)
    "/transactions" (transactionsQuery sample_options) = Ok sample_page ∧
  sample_fetchTransactions sample_page = Ok sample_records ∧
  ∃ parsed, sample_records = concat parsed ∧
    Forall2 (λ rawTx rs,
        let base := sample_stringifyTxId (tx_lt rawTx) (tx_hash rawTx) in
        let k := length (relevantMessages rawTx) in
        length rs = k ∧
        (k = 1%nat → ∀ r, r ∈ rs → txId r = base) ∧
        ((1 < k)%nat → ∀ i r, rs !! i = Some r →
           txId r = base +:+ ":" +:+ pretty (i + 1)%nat))
      (transactions sample_page) parsed.
Proof.
  split; [reflexivity |]. split; [vm_compute; reflexivity |].
  apply (txId_numbering sample_stringifyTxId sample_toBase64Address "toncoin"
           sample_mainnet_url sample_testnet_url sample_environment
           (sample_transactions sample_page) sample_options sample_page
           sample_records);
    [reflexivity | vm_compute; reflexivity].
Defined.

Lemma one_record_per_message_witness :
  sample_callApiV3 (sample_transactions sample_page) (network sample_options)
    "/transactions" (transactionsQuery sample_options) = Ok sample_page ∧
  ∃ recs, sample_fetchTransactions sample_page = Ok recs.
Proof.
  split; [reflexivity |].
  apply (one_record_per_message sample_stringifyTxId sample_toBase64Address
           "toncoin" sample_mainnet_url sample_testnet_url sample_environment
           (sample_transactions sample_page) sample_options sample_page);
    [reflexivity |].
  repeat constructor.
Defined.



Lemma direction_by_inbound_source_witness :
  source (in_msg sample_outgoing) = None ∧
  sample_parseRawTransaction sample_outgoing sample_book
  = Ok sample_outgoing_records ∧
  length sample_outgoing_records = 2%nat ∧
  (∀ i r, sample_outgoing_records !! i = Some r → isIncoming r = false) ∧
  source (in_msg (sample_incoming (Some "5"))) = Some "0:B" ∧
  ∃ r, sample_parseRawTransaction (sample_incoming (Some "5")) sample_book
       = Ok [r] ∧
       isIncoming r = true ∧ amount r = 5.
Proof.
  destruct (direction_by_inbound_source sample_stringifyTxId
              sample_toBase64Address "toncoin" mainnet sample_outgoing
              sample_book) as [Hout _].
  destruct (Hout (or_introl eq_refl)) as (_ & _ & Hrecs).
  assert (sample_parseRawTransaction sample_outgoing sample_book
          = Ok sample_outgoing_records) as Hparse
    by (vm_compute; reflexivity).
  destruct (Hrecs _ Hparse) as [Hlen Heach].
  split_and!; [reflexivity | exact Hparse | reflexivity | | reflexivity |].
  - intros i r Hr. exact (proj1 (Heach i r Hr)).
  - destruct (direction_by_inbound_source sample_stringifyTxId
                sample_toBase64Address "toncoin" mainnet
                (sample_incoming (Some "5")) sample_book) as [_ Hin].
    destruct (Hin "0:B" eq_refl ltac:(discriminate))
      as (_ & Hreturns & Hone & _).
    assert (is_Ok (sample_parseRawTransaction (sample_incoming (Some "5"))
                     sample_book) = true) as Hok
      by (apply Hreturns; vm_compute; reflexivity).
    apply is_Ok_true in Hok as [recs Hparsed].
    destruct (Hone recs Hparsed)
      as (r & v & -> & Hdir & _ & _ & _ & Hv & Ham & _).
    exists r. split_and!; [exact Hparsed | exact Hdir |].
    rewrite Ham. assert (Ok v = Ok 5) as Heq
      by (rewrite <- Hv; vm_compute; reflexivity).
    by injection Heq.
Defined.

(** The spec's wording of C6 fails on an inbound message of value 0: the
    record is incoming and its amount is 0, which is not positive. *)
Lemma zero_value_amount_not_positive :
  ∃ r,
    sample_parseRawTransaction (sample_incoming (Some "0")) sample_book = Ok [r] ∧
    isIncoming r = true ∧
    amount r = 0 ∧
    ¬ 0 < amount r.
Proof.
  eexists. split_and!; [vm_compute; reflexivity | reflexivity | reflexivity
                       | vm_compute; discriminate].
Defined.

Lemma amount_sign_and_magnitude_witness :
  sample_parseRawTransaction sample_outgoing sample_book
  = Ok sample_outgoing_records ∧
  ∃ r, sample_outgoing_records !! 1%nat = Some r ∧
    ∃ msg v,
      relevantMessages sample_outgoing !! 1%nat = Some msg ∧
      BigInt (value msg) = Ok v ∧
      amount r = (if isIncoming r then v else - v) ∧
      Z.abs (amount r) = Z.abs v ∧
      (0 < v → if isIncoming r then 0 < amount r else amount r < 0) ∧
      (v = 0 → amount r = 0) ∧
      (∀ n : N, value msg = Some (pretty n) → v = Z.of_N n).
Proof.
  split; [vm_compute; reflexivity |].
  eexists. split; [reflexivity |].
  apply (amount_sign_and_magnitude sample_stringifyTxId sample_toBase64Address
           "toncoin" mainnet sample_outgoing sample_book
           sample_outgoing_records 1%nat);
    [vm_compute; reflexivity | reflexivity].
Defined.

(** The spec's wording of C3 fails on a negative bound, where the code
    rounds down and truncation rounds up, and on the bound 0, to which no
    shift is applied. *)
Lemma bounds_floor_and_zero :
  start_utime (transactionsQuery (sample_window (Some (-1)) None (Some true) None))
  = Some (-1) ∧
  start_utime (transactionsQuery (sample_window (Some (-1)) None (Some true) None))
  ≠ Some ((-1) ÷ 1000) ∧
  start_utime (transactionsQuery (sample_window (Some 0) None (Some false) None))
  = Some 0 ∧
  start_utime (transactionsQuery (sample_window (Some 0) None (Some false) None))
  ≠ Some (0 ÷ 1000 + 1).
Proof. split_and!; (reflexivity || discriminate). Defined.

Lemma time_bounds_in_seconds_witness :
  fromTimestamp (sample_window (Some 1500) (Some 7999) (Some false) (Some false))
  = Some 1500 ∧
  toTimestamp (sample_window (Some 1500) (Some 7999) (Some false) (Some false))
  = Some 7999 ∧
  start_utime
    (transactionsQuery
       (sample_window (Some 1500) (Some 7999) (Some false) (Some false)))
  = Some 2 ∧
  end_utime
    (transactionsQuery
       (sample_window (Some 1500) (Some 7999) (Some false) (Some false)))
  = Some 6.
Proof.
  destruct (time_bounds_in_seconds
              (sample_window (Some 1500) (Some 7999) (Some false) (Some false)))
    as (_ & _ & Hfrom & Hto & _).
  split_and!; [reflexivity | reflexivity | |].
  - rewrite (Hfrom 1500); [reflexivity | reflexivity | discriminate].
  - rewrite (Hto 7999); [reflexivity | reflexivity | discriminate].
Defined.

(** The spec's wording of C10 fails on the bound 0: the query carries
    [start_utime] 0, while a bound that is left out gives an unset one. *)
Lemma zero_bound_is_not_unset :
  start_utime (transactionsQuery (sample_window (Some 0) (Some 0) None None))
  = Some 0 ∧
  end_utime (transactionsQuery (sample_window (Some 0) (Some 0) None None))
  = Some 0 ∧
  start_utime (transactionsQuery (sample_window (Some 0) (Some 0) None None))
  ≠ start_utime (transactionsQuery (sample_window None None None None)) ∧
  end_utime (transactionsQuery (sample_window (Some 0) (Some 0) None None))
  ≠ end_utime (transactionsQuery (sample_window None None None None)).
Proof. split_and!; (reflexivity || discriminate). Defined.

Lemma zero_bound_passed_as_zero_witness :
  fromTimestamp (sample_window (Some 0) (Some 0) (Some false) (Some false))
  = Some 0 ∧
  start_utime
    (transactionsQuery
       (sample_window (Some 0) (Some 0) (Some false) (Some false)))
  = Some 0.
Proof.
  split; [reflexivity |].
  apply (zero_bound_passed_as_zero
           (sample_window (Some 0) (Some 0) (Some false) (Some false))).
  reflexivity.
Defined.


(** The spec's wording of C7 fails on an answer without the entry:
    [fixAddressFormat] returns [undefined] and no error, and for the address
    [constructor] the member of that name that the book inherits. *)
Lemma absent_entry_is_no_failure :
  reply_address_book {| reply_address_book := ∅ |} !! "0:A" = None ∧
  fixAddressFormat sample_mainnet_url sample_testnet_url sample_environment
    (sample_reply ∅) mainnet "0:A" = Ok Undefined ∧
  (¬ ∃ e, fixAddressFormat sample_mainnet_url sample_testnet_url
            sample_environment (sample_reply ∅) mainnet "0:A" = Throw e) ∧
  fixAddressFormat sample_mainnet_url sample_testnet_url sample_environment
    (sample_reply ∅) mainnet "constructor"
  = Ok (InheritedMember "constructor").
Proof.
  split_and!; [reflexivity | vm_compute; reflexivity | | vm_compute; reflexivity].
  intros [e He]. vm_compute in He. discriminate He.
Defined.

Lemma fixAddressFormat_reads_entry_witness :
  sample_callApiV3 (sample_reply {[ "0:A" := "UQ-A" ]}) mainnet "/addressBook"
    "0:A" = Ok {| reply_address_book := {[ "0:A" := "UQ-A" ]} |} ∧
  reply_address_book {| reply_address_book := {[ "0:A" := "UQ-A" ]} |} !! "0:A"
  = Some "UQ-A" ∧
  fixAddressFormat sample_mainnet_url sample_testnet_url sample_environment
    (sample_reply {[ "0:A" := "UQ-A" ]}) mainnet "0:A" = Ok (OwnValue "UQ-A").
Proof.
  split_and!; [reflexivity | vm_compute; reflexivity |].
  apply (proj1 (fixAddressFormat_reads_entry sample_mainnet_url
                  sample_testnet_url sample_environment
                  (sample_reply {[ "0:A" := "UQ-A" ]}) mainnet "0:A")
           {| reply_address_book := {[ "0:A" := "UQ-A" ]} |});
    [reflexivity | vm_compute; reflexivity].
Defined.



Lemma batch_failure_fails_all_witness :
  ["0:128"] ∈ split sample_addresses ADDRESS_BOOK_CHUNK_SIZE ∧
  sample_callApiV3 sample_flaky mainnet "/addressBook" ["0:128"]
  = Throw (Failure "timeout") ∧
  fetchAddressBook sample_mainnet_url sample_testnet_url sample_environment
    sample_flaky [0; 1]%nat mainnet sample_addresses
  = Throw (Failure "timeout").
Proof.
  assert (["0:128"] ∈ split sample_addresses ADDRESS_BOOK_CHUNK_SIZE) as Hin
    by (apply (bool_decide_unpack _); vm_compute; exact I).
  split_and!; [exact Hin | reflexivity |].
  destruct (batch_failure_fails_all sample_mainnet_url sample_testnet_url
              sample_environment sample_flaky [0; 1]%nat mainnet
              sample_addresses ["0:128"] (Failure "timeout") Hin eq_refl)
    as (e & Hfetch & _ & _ & Hfirst).
  rewrite Hfetch. f_equal.
  apply (Hfirst [0%nat] 1%nat [] (Failure "timeout") eq_refl).
  - intros j Hj e0 Hcall. apply list_elem_of_singleton in Hj as ->.
    vm_compute in Hcall. discriminate Hcall.
  - vm_compute. reflexivity.
Defined.

(** The spec's wording of C9 fails when two batch calls fail with different
    errors: the first batch fails with one error and the operation fails
    with the other, that of the second batch, which settled first. *)
Lemma two_failures_report_the_first_to_settle :
  take 128 sample_addresses ∈ split sample_addresses ADDRESS_BOOK_CHUNK_SIZE ∧
  sample_callApiV3 sample_both_fail mainnet "/addressBook"
    (take 128 sample_addresses) = Throw (Failure "first") ∧
  fetchAddressBook sample_mainnet_url sample_testnet_url sample_environment
    sample_both_fail [1; 0]%nat mainnet sample_addresses
  = Throw (Failure "second") ∧
  fetchAddressBook sample_mainnet_url sample_testnet_url sample_environment
    sample_both_fail [1; 0]%nat mainnet sample_addresses
  ≠ Throw (Failure "first").
Proof.
  split_and!.
  - apply (bool_decide_unpack _). vm_compute. exact I.
  - vm_compute. reflexivity.
  - vm_compute. reflexivity.
  - vm_compute. discriminate.
Defined.

(** ** More on the transaction fetcher *)

Section MoreOnTheFetcher.
Context (stringifyTxId : Z → string → string).
Context (toBase64Address : option string → bool → ApiNetwork → Result string).
Context (TONCOIN_slug : string).
Context (TONHTTPAPI_V3_MAINNET_API_URL TONHTTPAPI_V3_TESTNET_API_URL : string).
Context (getEnvironment : Environment).

Local Abbreviation parseMessage :=
  (parseMessage stringifyTxId toBase64Address TONCOIN_slug).
Local Abbreviation parseRawTransaction :=
  (parseRawTransaction stringifyTxId toBase64Address TONCOIN_slug).
Local Abbreviation callApiV3 :=
  (callApiV3 TONHTTPAPI_V3_MAINNET_API_URL TONHTTPAPI_V3_TESTNET_API_URL
     getEnvironment).
Local Abbreviation fetchTransactions :=
  (fetchTransactions stringifyTxId toBase64Address TONCOIN_slug
     TONHTTPAPI_V3_MAINNET_API_URL TONHTTPAPI_V3_TESTNET_API_URL getEnvironment).
Local Abbreviation fetchLatestTxId :=
  (fetchLatestTxId stringifyTxId
     TONHTTPAPI_V3_MAINNET_API_URL TONHTTPAPI_V3_TESTNET_API_URL getEnvironment).

Implicit Types (network : ApiNetwork) (addressBook : AddressBook).
Implicit Types (rawTx : RawTransaction) (msg : RawMessage).
Implicit Types (r : ApiTransactionExtra) (recs : list ApiTransactionExtra).

(** Which error an event fails with: that of the callback on the first
    message on which it throws. *)
Lemma parseRawTransaction_Throw network rawTx addressBook e :
  parseRawTransaction network rawTx addressBook = Throw e ↔
  ∃ ms1 msg ms2,
    relevantMessages rawTx = ms1 ++ msg :: ms2 ∧
    Forall (λ m,
        messageParses toBase64Address network addressBook rawTx
          (truthy_string (source (in_msg rawTx))) m = true) ms1 ∧
    parseMessage network addressBook rawTx
      (truthy_string (source (in_msg rawTx)))
      (length (relevantMessages rawTx)) (length ms1) msg = Throw e.
Proof.
  rewrite (parseRawTransaction_unfold stringifyTxId toBase64Address).
  set (g := parseMessage _ _ _ _ _). split.
  - intros (l1 & x & l2 & Heq & Hok & Hx)%mapM_Throw. simpl in Hx. subst x.
    assert (imap g (relevantMessages rawTx) !! length l1 = Some (Throw e))
      as Hat.
    { rewrite Heq. by apply list_lookup_middle. }
    apply list_lookup_imap_Some in Hat as (msg & Hmsg & Hthrow).
    pose proof (lookup_lt_Some _ _ _ Hmsg) as Hlt.
    exists (take (length l1) (relevantMessages rawTx)), msg,
      (drop (S (length l1)) (relevantMessages rawTx)).
    split_and!.
    + by rewrite take_drop_middle.
    + apply Forall_lookup. intros j m Hm.
      apply lookup_take_Some in Hm as [Hm Hj].
      rewrite <- (parseMessage_is_Ok stringifyTxId toBase64Address TONCOIN_slug
                    _ _ _ _ (length (relevantMessages rawTx)) j).
      fold g.
      assert (imap g (relevantMessages rawTx) !! j = Some (g j m)) as Hgj
        by (by rewrite list_lookup_imap, Hm).
      rewrite Heq, lookup_app_l in Hgj by done.
      by eapply (proj1 (Forall_lookup _ _) Hok).
    + rewrite length_take, Nat.min_l by lia. by symmetry.
  - intros (ms1 & msg & ms2 & Hmsgs & Hbefore & Hthrow).
    apply mapM_Throw.
    exists (imap g ms1), (g (length ms1 + 0)%nat msg),
      (imap (λ n, g (length ms1 + S n)%nat) ms2).
    split_and!.
    + by rewrite Hmsgs, imap_app, imap_cons.
    + apply Forall_lookup. intros i x Hx.
      apply list_lookup_imap_Some in Hx as (m & Hm & ->).
      unfold g, id.
      rewrite (parseMessage_is_Ok stringifyTxId toBase64Address TONCOIN_slug).
      by eapply (proj1 (Forall_lookup _ _) Hbefore).
    + simpl. by rewrite Nat.add_0_r.
Qed.

(** X1: once the service has answered, [fetchTransactions] fails with [e]
    exactly when [e] is what the callback throws on the first message, in
    the order of the events and then of their messages, on which it throws;
    every event before it has returned and nothing of them is given back. *)
Theorem fetchTransactions_first_failure
    (fetchJson : string → TransactionsQuery → gmap string string
                 → Result TransactionsPage) options data e :
  callApiV3 fetchJson (network options) "/transactions"
    (transactionsQuery options) = Ok data →
  fetchTransactions fetchJson options = Throw e ↔
  ∃ txs1 rawTx txs2 ms1 msg ms2,
    transactions data = txs1 ++ rawTx :: txs2 ∧
    Forall (λ tx,
        Forall (λ m,
            messageParses toBase64Address (network options) (address_book data)
              tx (truthy_string (source (in_msg tx))) m = true)
          (relevantMessages tx)) txs1 ∧
    relevantMessages rawTx = ms1 ++ msg :: ms2 ∧
    Forall (λ m,
        messageParses toBase64Address (network options) (address_book data)
          rawTx (truthy_string (source (in_msg rawTx))) m = true) ms1 ∧
    parseMessage (network options) (address_book data) rawTx
      (truthy_string (source (in_msg rawTx)))
      (length (relevantMessages rawTx)) (length ms1) msg = Throw e.
Proof.
  intros Hcall.
  rewrite (fetchTransactions_unfold stringifyTxId toBase64Address TONCOIN_slug
             _ _ _ _ _ _ Hcall).
  split.
  - destruct (mapM _ (transactions data)) as [parsed|e'] eqn:Hmap; [done |].
    intros [= ->].
    apply mapM_Throw in Hmap as (txs1 & rawTx & txs2 & Htxs & Hok & Hthrow).
    apply parseRawTransaction_Throw in Hthrow
      as (ms1 & msg & ms2 & Hmsgs & Hbefore & Hmsg).
    exists txs1, rawTx, txs2, ms1, msg, ms2. split_and!; try done.
    eapply Forall_impl; [exact Hok |]. intros tx Htx. cbv beta in Htx.
    by apply (parseRawTransaction_is_Ok stringifyTxId toBase64Address
                TONCOIN_slug) in Htx.
  - intros (txs1 & rawTx & txs2 & ms1 & msg & ms2 & Htxs & Hok & Hmsgs
            & Hbefore & Hmsg).
    assert (mapM (λ tx, parseRawTransaction (network options) tx
                          (address_book data)) (transactions data)
            = Throw e) as ->; [|done].
    apply mapM_Throw. exists txs1, rawTx, txs2. split_and!; [done | |].
    + eapply Forall_impl; [exact Hok |]. intros tx Htx.
      by apply (parseRawTransaction_is_Ok stringifyTxId toBase64Address
                  TONCOIN_slug).
    + apply parseRawTransaction_Throw. by exists ms1, msg, ms2.
Qed.

(** X2: the number of records that [fetchTransactions] returns is the sum,
    over the events of the page, of their numbers of relevant messages: it
    is the events that [limit] bounds, not the records. *)
Theorem records_count
    (fetchJson : string → TransactionsQuery → gmap string string
                 → Result TransactionsPage) options data recs :
  callApiV3 fetchJson (network options) "/transactions"
    (transactionsQuery options) = Ok data →
  fetchTransactions fetchJson options = Ok recs →
  length recs
  = sum_list ((λ rawTx, length (relevantMessages rawTx)) <$> transactions data).
Proof.
  intros Hcall Hfetch.
  apply (fetchTransactions_Ok stringifyTxId toBase64Address TONCOIN_slug
           _ _ _ _ _ _ _ Hcall) in Hfetch as (parsed & -> & Hall).
  induction Hall as [|rawTx rs txs parsed Hparse _ IH]; [done |].
  rewrite concat_cons, length_app, fmap_cons. simpl sum_list.
  rewrite IH. f_equal.
  exact (parseRawTransaction_length stringifyTxId toBase64Address TONCOIN_slug
           _ _ _ _ Hparse).
Qed.

(** X3: each event contributes as many records as it has relevant
    messages, and every one of them carries the direction of the event, the
    hash of its inbound message (also when the record is made from an
    outbound one) and the slug of the native coin; [shouldHide] is [true]
    exactly when the compute phase has an exit code other than 0, and the
    key is absent otherwise, never [false]. *)
Theorem event_fields_on_every_record
    (fetchJson : string → TransactionsQuery → gmap string string
                 → Result TransactionsPage) options data recs :
  callApiV3 fetchJson (network options) "/transactions"
    (transactionsQuery options) = Ok data →
  fetchTransactions fetchJson options = Ok recs →
  ∃ parsed, recs = concat parsed ∧
    Forall2 (λ rawTx rs,
        length rs = length (relevantMessages rawTx) ∧
        Forall (λ r,
            isIncoming r = truthy_string (source (in_msg rawTx)) ∧
            inMsgHash r = msg_hash (in_msg rawTx) ∧
            slug r = TONCOIN_slug ∧
            (shouldHide r = Some true ↔
             ∃ code, exit_code (compute_ph (description rawTx)) = Some code ∧
                     code ≠ 0) ∧
            (shouldHide r = None ↔
             exit_code (compute_ph (description rawTx)) = None ∨
             exit_code (compute_ph (description rawTx)) = Some 0) ∧
            shouldHide r ≠ Some false)
          rs)
      (transactions data) parsed.
Proof.
  intros Hcall Hfetch.
  apply (fetchTransactions_Ok stringifyTxId toBase64Address TONCOIN_slug
           _ _ _ _ _ _ _ Hcall) in Hfetch as (parsed & -> & Hall).
  exists parsed. split; [done |].
  eapply Forall2_impl; [exact Hall |].
  intros rawTx rs Hparse. cbv beta. split.
  { exact (parseRawTransaction_length stringifyTxId toBase64Address
             TONCOIN_slug _ _ _ _ Hparse). }
  apply Forall_lookup. intros i r Hr.
  destruct (parseRawTransaction_fields stringifyTxId toBase64Address
              TONCOIN_slug _ _ _ _ _ _ Hparse Hr)
    as (msg & v & _ & _ & _ & _ & Hin & _ & _ & _ & Hslug & _ & Hhash & _
        & Hhide & _).
  split_and!; [done | done | done | | |]; rewrite Hhide;
    destruct (exit_code (compute_ph (description rawTx))) as [code|]; simpl.
  - destruct (Z.eqb_spec code 0) as [->|Hne]; simpl.
    + split; [done |]. by intros (? & [= <-] & ?).
    + split; [by exists code | done].
  - split; [done |]. by intros (? & ? & _).
  - destruct (Z.eqb_spec code 0) as [->|Hne]; simpl.
    + split; [by right | done].
    + split; [done |]. by intros [?|[= ?]].
  - split; [by left | done].
  - by destruct (code =? 0).
  - done.
Qed.

(** X4: the records of one event have pairwise distinct ids. *)
Theorem txIds_distinct_within_event network rawTx addressBook recs :
  parseRawTransaction network rawTx addressBook = Ok recs →
  NoDup (txId <$> recs).
Proof.
  intros Hparse. apply NoDup_alt. intros i j id Hi Hj.
  rewrite list_lookup_fmap in Hi, Hj.
  destruct (recs !! i) as [ri|] eqn:Hri; [|done].
  destruct (recs !! j) as [rj|] eqn:Hrj; [|done].
  simpl in Hi, Hj.
  pose proof (parseRawTransaction_length stringifyTxId toBase64Address
                TONCOIN_slug _ _ _ _ Hparse) as Hlen.
  pose proof (lookup_lt_Some _ _ _ Hri) as Hilt.
  pose proof (lookup_lt_Some _ _ _ Hrj) as Hjlt.
  destruct (parseRawTransaction_fields stringifyTxId toBase64Address
              TONCOIN_slug _ _ _ _ _ _ Hparse Hri)
    as (? & ? & _ & _ & Hidi & _).
  destruct (parseRawTransaction_fields stringifyTxId toBase64Address
              TONCOIN_slug _ _ _ _ _ _ Hparse Hrj)
    as (? & ? & _ & _ & Hidj & _).
  case_decide as Hmany; [|lia].
  assert (txId ri = txId rj) as Hsame by congruence.
  rewrite Hidi, Hidj in Hsame.
  apply String.app_inj, String.app_inj in Hsame.
  apply (inj pretty) in Hsame. lia.
Qed.

Lemma user_friendly_of_same_keys (book1 book2 : AddressBook) key :
  (is_Some (book1 !! toPropertyKey key) ↔ is_Some (book2 !! toPropertyKey key)) →
  (∃ s1 s2, user_friendly_of book1 key = Ok s1 ∧
            user_friendly_of book2 key = Ok s2) ∨
  (user_friendly_of book1 key = Throw TypeError ∧
   user_friendly_of book2 key = Throw TypeError).
Proof.
  unfold user_friendly_of, get_property. intros [H12 H21].
  destruct (book1 !! toPropertyKey key) as [e1|] eqn:H1.
  - destruct H12 as [e2 ->]; [by eexists |]. left. by eexists _, _.
  - destruct (book2 !! toPropertyKey key) as [e2|] eqn:H2.
    + destruct H21 as [e1 ?]; [by eexists | done].
    + case_bool_decide; [left; by eexists _, _ | by right].
Qed.

(** X5: the address book reaches a record through [fromAddress] and
    [toAddress] only: with two books that have the same keys, an event
    fails with the same error or gives the same records up to these two
    fields; the normalized counterparty does not come from the book. *)
Theorem book_names_only network rawTx (book1 book2 : AddressBook) :
  (∀ key, is_Some (book1 !! key) ↔ is_Some (book2 !! key)) →
  (λ recs, forgetFriendly <$> recs) <$> parseRawTransaction network rawTx book1
  = (λ recs, forgetFriendly <$> recs) <$> parseRawTransaction network rawTx book2.
Proof.
  intros Hkeys.
  rewrite !(parseRawTransaction_unfold stringifyTxId toBase64Address).
  set (g1 := parseMessage network book1 rawTx _ _).
  set (g2 := parseMessage network book2 rawTx _ _).
  assert (∀ i msg, forgetFriendly <$> g1 i msg = forgetFriendly <$> g2 i msg)
    as Hmsg.
  { intros i msg. unfold g1, g2, parseMessage, mbind, Result_bind.
    destruct (user_friendly_of_same_keys book1 book2 (source msg)
                (Hkeys _)) as [(s1 & s2 & -> & ->)|[-> ->]]; [|done].
    destruct (user_friendly_of_same_keys book1 book2 (destination msg)
                (Hkeys _)) as [(d1 & d2 & -> & ->)|[-> ->]]; [|done].
    destruct (toBase64Address _ true network); [|done].
    destruct (BigInt (value msg)); [|done].
    by destruct (BigInt (total_fees rawTx)). }
  clearbody g1 g2.
  induction (relevantMessages rawTx) as [|msg msgs IH] in g1, g2, Hmsg |- *;
    [done |].
  rewrite !imap_cons, !mapM_cons. unfold id at 1 3.
  specialize (Hmsg 0%nat msg) as Hhead.
  specialize (IH (g1 ∘ S) (g2 ∘ S) (λ i m, Hmsg (S i) m)).
  destruct (g1 0%nat msg) as [r1|e1], (g2 0%nat msg) as [r2|e2];
    simplify_eq/=; [|done].
  destruct (mapM id (imap (g1 ∘ S) msgs)) as [k1|e1],
    (mapM id (imap (g2 ∘ S) msgs)) as [k2|e2]; simplify_eq/=; [|done].
  rewrite IH. unfold forgetFriendly. congruence.
Qed.

(** X6: once the service has answered, [fetchLatestTxId] does not fail:
    it returns [undefined] when the page has no event and the composite id
    of the first event otherwise; it reads neither the messages of the event
    nor the address book. *)
Theorem fetchLatestTxId_answer
    (fetchJson : string → TransactionsQuery → gmap string string
                 → Result TransactionsPage) network (address : string) page :
  callApiV3 fetchJson network "/transactions"
    {| account := inl address;
       query_limit := 1;
       start_utime := None;
       end_utime := None;
       sort := "desc" |} = Ok page →
  fetchLatestTxId fetchJson network address
  = Ok ((λ rawTx, stringifyTxId (tx_lt rawTx) (tx_hash rawTx))
          <$> head (transactions page)) ∧
  (fetchLatestTxId fetchJson network address = Ok None ↔
   transactions page = []).
Proof.
  intros Hcall. unfold fetchLatestTxId. rewrite Hcall.
  unfold mbind, Result_bind.
  destruct (transactions page) as [|rawTx rest]; simpl.
  - by split.
  - split; [done |]. by split.
Qed.

Lemma append_nonempty_ne (s t : string) : t ≠ "" → s +:+ t ≠ s.
Proof.
  intros Ht Heq. apply (f_equal String.length) in Heq.
  rewrite append_length in Heq. destruct t; [done |]. simpl in Heq. lia.
Qed.

(** X7: when the page of [fetchTransactions] starts with the event whose id
    [fetchLatestTxId] returns, the first record has that id if the event has
    one relevant message; if it has several, its records have the ids
    [id:1], [id:2], ... and none of them has the id [fetchLatestTxId]
    returns. *)
Theorem latest_id_and_first_records
    (fetchJson : string → TransactionsQuery → gmap string string
                 → Result TransactionsPage) options (address : string)
    latest data rawTx rest rest' :
  callApiV3 fetchJson (network options) "/transactions"
    {| account := inl address;
       query_limit := 1;
       start_utime := None;
       end_utime := None;
       sort := "desc" |} = Ok latest →
  transactions latest = rawTx :: rest' →
  callApiV3 fetchJson (network options) "/transactions"
    (transactionsQuery options) = Ok data →
  transactions data = rawTx :: rest →
  ∃ id,
    fetchLatestTxId fetchJson (network options) address = Ok (Some id) ∧
    ∀ recs, fetchTransactions fetchJson options = Ok recs →
      (length (relevantMessages rawTx) = 1%nat →
       ∃ r, recs !! 0%nat = Some r ∧ txId r = id) ∧
      ((1 < length (relevantMessages rawTx))%nat →
       ∀ i, (i < length (relevantMessages rawTx))%nat →
         ∃ r, recs !! i = Some r ∧
              txId r = id +:+ ":" +:+ pretty (i + 1)%nat ∧ txId r ≠ id).
Proof.
  intros Hlatest Hhead Hcall Hdata.
  exists (stringifyTxId (tx_lt rawTx) (tx_hash rawTx)). split.
  { unfold fetchLatestTxId. rewrite Hlatest. unfold mbind, Result_bind.
    by rewrite Hhead. }
  intros recs Hfetch.
  apply (fetchTransactions_Ok stringifyTxId toBase64Address TONCOIN_slug
           _ _ _ _ _ _ _ Hcall) in Hfetch as (parsed & -> & Hall).
  rewrite Hdata in Hall.
  apply Forall2_cons_inv_l in Hall as (rs & parsed' & Hparse & _ & ->).
  pose proof (parseRawTransaction_length stringifyTxId toBase64Address
                TONCOIN_slug _ _ _ _ Hparse) as Hlen.
  assert (∀ i, (i < length (relevantMessages rawTx))%nat →
            ∃ r, concat (rs :: parsed') !! i = Some r ∧ rs !! i = Some r)
    as Hrec.
  { intros i Hi. destruct (lookup_lt_is_Some_2 rs i) as [r Hr]; [lia |].
    exists r. split; [|done]. rewrite concat_cons, lookup_app_l by lia. done. }
  split.
  - intros Hone. destruct (Hrec 0%nat) as (r & Hr & Hrs); [lia |].
    exists r. split; [done |].
    destruct (parseRawTransaction_fields stringifyTxId toBase64Address
                TONCOIN_slug _ _ _ _ _ _ Hparse Hrs)
      as (? & ? & _ & _ & -> & _).
    case_decide; [lia | done].
  - intros Hmany i Hi. destruct (Hrec i Hi) as (r & Hr & Hrs).
    exists r. split; [done |].
    destruct (parseRawTransaction_fields stringifyTxId toBase64Address
                TONCOIN_slug _ _ _ _ _ _ Hparse Hrs)
      as (? & ? & _ & _ & -> & _).
    case_decide; [|lia]. split; [done |].
    by apply append_nonempty_ne.
Qed.

(** X8: [msToSec] undoes the conversion of [now] to milliseconds, so a
    record's timestamp used as a bound of the next query gives back the
    second of its event: as upper bound [now], or [now - 1] when the bound
    is not included; as lower bound [now], or [now + 1]. *)
Theorem record_timestamp_as_bound network rawTx addressBook recs r :
  parseRawTransaction network rawTx addressBook = Ok recs →
  r ∈ recs →
  now rawTx ≠ 0 →
  msToSec (timestamp r) = now rawTx ∧
  ∀ options,
    (toTimestamp options = Some (timestamp r) →
     end_utime (transactionsQuery options)
     = Some (if truthy_bool (shouldIncludeTo options) then now rawTx
             else now rawTx - 1)) ∧
    (fromTimestamp options = Some (timestamp r) →
     start_utime (transactionsQuery options)
     = Some (if truthy_bool (shouldIncludeFrom options) then now rawTx
             else now rawTx + 1)).
Proof.
  intros Hparse [i Hr]%list_elem_of_lookup Hnow.
  destruct (parseRawTransaction_fields stringifyTxId toBase64Address
              TONCOIN_slug _ _ _ _ _ _ Hparse Hr)
    as (? & ? & _ & _ & _ & Hts & _).
  assert (msToSec (timestamp r) = now rawTx) as Hsec.
  { rewrite Hts. unfold msToSec. by apply Z.div_mul. }
  split; [done |]. intros options.
  unfold transactionsQuery; simpl. split; intros ->.
  - rewrite and_then_nonzero by lia. rewrite Hsec.
    destruct (truthy_bool (shouldIncludeTo options)); simpl; f_equal; lia.
  - rewrite and_then_nonzero by lia. rewrite Hsec.
    destruct (truthy_bool (shouldIncludeFrom options)); simpl; f_equal; lia.
Qed.

End MoreOnTheFetcher.

(** ** More on the time bounds and on the request *)

(** X9: for a bound [T] other than 0, the lower bound of a window that does
    not include [T] and the upper bound of a window that includes [T] are
    exact in milliseconds: the seconds [sec] at or above the lower bound are
    those with [T < sec * 1000], the seconds at or below the upper bound
    those with [sec * 1000 ≤ T]. *)
Theorem exclusive_from_and_inclusive_to_are_exact options T :
  T ≠ 0 →
  (fromTimestamp options = Some T →
   truthy_bool (shouldIncludeFrom options) = false →
   ∃ bound, start_utime (transactionsQuery options) = Some bound ∧
            ∀ sec, bound ≤ sec ↔ T < sec * 1000) ∧
  (toTimestamp options = Some T →
   truthy_bool (shouldIncludeTo options) = true →
   ∃ bound, end_utime (transactionsQuery options) = Some bound ∧
            ∀ sec, sec ≤ bound ↔ sec * 1000 ≤ T).
Proof.
  intros HT. unfold transactionsQuery; simpl.
  pose proof (msToSec_floor T) as Hfloor.
  split; intros -> ->; rewrite and_then_nonzero by done; simpl;
    eexists; (split; [reflexivity |]); intros sec; lia.
Qed.

(** X10: the two other bounds are rounded down to a whole second.  For a
    bound [T] other than 0, the lower bound of a window that includes [T]
    admits the seconds from [T - T mod 1000] on, up to 999 ms before [T];
    the upper bound of a window that does not include [T] admits the seconds
    before [T - T mod 1000] only, so a second that starts in the last
    [T mod 1000] ms before [T] is left out. *)
Theorem inclusive_from_and_exclusive_to_round_down options T :
  T ≠ 0 →
  (fromTimestamp options = Some T →
   truthy_bool (shouldIncludeFrom options) = true →
   ∃ bound, start_utime (transactionsQuery options) = Some bound ∧
            ∀ sec, bound ≤ sec ↔ T - T `mod` 1000 ≤ sec * 1000) ∧
  (toTimestamp options = Some T →
   truthy_bool (shouldIncludeTo options) = false →
   ∃ bound, end_utime (transactionsQuery options) = Some bound ∧
            ∀ sec, sec ≤ bound ↔ sec * 1000 < T - T `mod` 1000).
Proof.
  intros HT. unfold transactionsQuery; simpl.
  pose proof (Z.div_mod T 1000) as Hdiv.
  pose proof (Z.mod_pos_bound T 1000) as Hmod.
  split; intros -> ->; rewrite and_then_nonzero by done; simpl;
    eexists; (split; [reflexivity |]); intros sec; unfold msToSec; lia.
Qed.

(** X11: what [callApiV3] sends.  Whatever the transport, the data and its
    answer are passed through unchanged, with one URL and one set of headers
    that depend on the network and the path only: the URL is the base URL of
    the network followed by the path; the header [X-Api-Key] is the one of
    [apiHeaders] when it has one, the key of that network when it is
    configured and not empty, and is not sent otherwise; every other header
    is that of [apiHeaders]. *)
Theorem callApiV3_request
    (TONHTTPAPI_V3_MAINNET_API_URL TONHTTPAPI_V3_TESTNET_API_URL : string)
    (getEnvironment : Environment) (network : ApiNetwork) (path : string) :
  ∃ (url : string) (headers : gmap string string),
    (∀ (D R : Type) (fetchJson : string → D → gmap string string → Result R)
       (data : D),
       callApiV3 TONHTTPAPI_V3_MAINNET_API_URL TONHTTPAPI_V3_TESTNET_API_URL
         getEnvironment fetchJson network path data
       = fetchJson url data headers) ∧
    url = match network with
          | testnet => TONHTTPAPI_V3_TESTNET_API_URL
          | mainnet => TONHTTPAPI_V3_MAINNET_API_URL
          end +:+ path ∧
    headers !! "X-Api-Key" =
      match apiHeaders getEnvironment !! "X-Api-Key" with
      | Some override => Some override
      | None =>
          match match network with
                | testnet => tonhttpapiTestnetKey getEnvironment
                | mainnet => tonhttpapiMainnetKey getEnvironment
                end with
          | Some key => if decide (key = "") then None else Some key
          | None => None
          end
      end ∧
    ∀ name, name ≠ "X-Api-Key" →
      headers !! name = apiHeaders getEnvironment !! name.
Proof.
  eexists _, _. split; [intros; reflexivity |].
  split; [by destruct network |].
  set (key := if decide (network = testnet)
              then tonhttpapiTestnetKey getEnvironment
              else tonhttpapiMainnetKey getEnvironment).
  assert (key = match network with
                | testnet => tonhttpapiTestnetKey getEnvironment
                | mainnet => tonhttpapiMainnetKey getEnvironment
                end) as Hkey by (by destruct network).
  rewrite <- Hkey. clearbody key. clear Hkey.
  split.
  - rewrite lookup_union.
    destruct (apiHeaders getEnvironment !! "X-Api-Key") as [override|];
      [by destruct (_ !! _) |].
    destruct key as [key|]; simpl; [|done].
    destruct (String.eqb_spec key "") as [->|Hne]; simpl; [done |].
    rewrite decide_False by done. by rewrite lookup_singleton_eq.
  - intros name Hname. rewrite lookup_union.
    assert ((match key with
             | Some k =>
                 if truthy_string key then ({[ "X-Api-Key" := k ]} : gmap string string)
                 else ∅
             | None => ∅
             end) !! name = None) as ->.
    { destruct key as [k|]; [|done].
      destruct (truthy_string (Some k)); [|done].
      by apply lookup_singleton_ne. }
    by destruct (apiHeaders getEnvironment !! name).
Qed.

(** ** More on the address resolver *)

Section MoreOnTheResolver.
Context (TONHTTPAPI_V3_MAINNET_API_URL TONHTTPAPI_V3_TESTNET_API_URL : string).
Context (getEnvironment : Environment).

Local Abbreviation addressBookCalls :=
  (addressBookCalls TONHTTPAPI_V3_MAINNET_API_URL
     TONHTTPAPI_V3_TESTNET_API_URL getEnvironment).
Local Abbreviation fetchAddressBook :=
  (fetchAddressBook TONHTTPAPI_V3_MAINNET_API_URL
     TONHTTPAPI_V3_TESTNET_API_URL getEnvironment).

Implicit Types (network : ApiNetwork) (addresses : list string).
Implicit Types (order : list nat) (books : list AddressBook).



(** X13: the order in which the batch calls settle decides nothing but
    which error is reported: a mapping returned under one order is returned
    under every order, and a failure under one order is a failure under
    every order. *)
Theorem settlement_order_only_picks_the_error
    (fetchJson : string → list string → gmap string string → Result AddressBook)
    order1 order2 network addresses :
  (∀ merged : AddressBook,
     fetchAddressBook fetchJson order1 network addresses = Ok merged →
     fetchAddressBook fetchJson order2 network addresses = Ok merged) ∧
  (∀ e1,
     fetchAddressBook fetchJson order1 network addresses = Throw e1 →
     ∃ e2, fetchAddressBook fetchJson order2 network addresses = Throw e2 ∧
           Throw e2 ∈ addressBookCalls fetchJson network addresses).
Proof.
  unfold fetchAddressBook. split.
  - intros merged.
    destruct (Promise_all order1 _) as [books|e] eqn:H1; [|done].
    apply Promise_all_Ok in H1.
    by rewrite (proj2 (Promise_all_Ok order2 _ books) H1).
  - intros e1.
    destruct (Promise_all order1 _) as [books|e] eqn:H1; [done |].
    intros _. apply Promise_all_Throw in H1.
    destruct (Promise_all_rejects order2 _ _ H1) as [e2 H2].
    exists e2. rewrite H2. split; [done |].
    by apply Promise_all_Throw in H2.
Qed.

(** X14: calls are issued exactly when there is an address to resolve; on
    the empty input [fetchAddressBook] returns the empty mapping without
    calling the service, also when the service is down. *)
Theorem no_address_no_call
    (fetchJson : string → list string → gmap string string → Result AddressBook)
    network addresses :
  (addressBookCalls fetchJson network addresses = [] ↔ addresses = []) ∧
  (addresses = [] →
   ∀ order, fetchAddressBook fetchJson order network addresses = Ok ∅).
Proof.
  split.
  - split; [|by intros ->].
    intros Hcalls. apply (f_equal length) in Hcalls.
    unfold addressBookCalls in Hcalls. rewrite length_fmap in Hcalls.
    rewrite <- (split_concat addresses ADDRESS_BOOK_CHUNK_SIZE)
      by (unfold ADDRESS_BOOK_CHUNK_SIZE; lia).
    by rewrite (nil_length_inv _ Hcalls).
  - intros -> order. unfold fetchAddressBook.
    change (addressBookCalls fetchJson network []) with (Ok <$> @nil AddressBook).
    by rewrite (proj2 (Promise_all_Ok order _ []) eq_refl).
Qed.

End MoreOnTheResolver.

(** ** The receive modal *)

(** X15: the title of the receive modal offers buying, [Add / Buy],
    exactly when the account is not on testnet and either the on-ramp is not
    disabled or the account is no Ledger account and swapping is not
    disabled; otherwise it is [Add].  On testnet it is always [Add]; a
    Ledger account is offered buying exactly when the on-ramp is allowed. *)
Theorem modal_title_offers_buying (lang : string → string) props :
  (modalTitle lang props = lang "Add / Buy" ∨ modalTitle lang props = lang "Add") ∧
  (modalTitleKey props = "Add / Buy" ↔
   truthy_bool (isTestnet props) = false ∧
   (isOnRampDisabled props = false ∨
    (truthy_bool (isLedger props) = false ∧ isSwapDisabled props = false))) ∧
  (truthy_bool (isTestnet props) = true → modalTitle lang props = lang "Add") ∧
  (truthy_bool (isLedger props) = true →
   (modalTitleKey props = "Add / Buy" ↔ isOnRampAllowed props = true)).
Proof.
  unfold modalTitle, modalTitleKey, isSwapAllowed, isOnRampAllowed.
  destruct (truthy_bool (isTestnet props)), (truthy_bool (isLedger props)),
    (isSwapDisabled props), (isOnRampDisabled props); simpl;
    split_and!; try done; try (by left); try (by right);
    split; try done; intros; try done;
    repeat match goal with
           | H : _ ∧ _ |- _ => destruct H
           | H : _ ∨ _ |- _ => destruct H
           end; try done; auto.
Qed.

(** ** The further statements on the sample inputs *)

Lemma fetchTransactions_first_failure_witness :
  sample_callApiV3 (sample_transactions sample_page_null_value)
    (network sample_options) "/transactions" (transactionsQuery sample_options)
  = Ok sample_page_null_value ∧
  sample_fetchTransactions sample_page_null_value = Throw TypeError.
Proof.
  split; [reflexivity |].
  apply (fetchTransactions_first_failure sample_stringifyTxId
           sample_toBase64Address "toncoin" sample_mainnet_url
           sample_testnet_url sample_environment
           (sample_transactions sample_page_null_value) sample_options
           sample_page_null_value TypeError eq_refl).
  exists [], (sample_incoming None), [], [],
    (in_msg (sample_incoming None)), [].
  split_and!; [reflexivity | constructor | reflexivity | constructor
              | vm_compute; reflexivity].
Defined.

Lemma records_count_witness :
  sample_callApiV3 (sample_transactions sample_page) (network sample_options)
    "/transactions" (transactionsQuery sample_options) = Ok sample_page ∧
  sample_fetchTransactions sample_page = Ok sample_records ∧
  length sample_records
  = sum_list ((λ rawTx, length (relevantMessages rawTx))
                <$> transactions sample_page).
Proof.
  split; [reflexivity |]. split; [vm_compute; reflexivity |].
  apply (records_count sample_stringifyTxId sample_toBase64Address "toncoin"
           sample_mainnet_url sample_testnet_url sample_environment
           (sample_transactions sample_page) sample_options sample_page
           sample_records);
    [reflexivity | vm_compute; reflexivity].
Defined.

Lemma event_fields_on_every_record_witness :
  sample_callApiV3 (sample_transactions sample_page) (network sample_options)
    "/transactions" (transactionsQuery sample_options) = Ok sample_page ∧
  sample_fetchTransactions sample_page = Ok sample_records ∧
  ∃ parsed, sample_records = concat parsed ∧
    Forall2 (λ rawTx rs,
        length rs = length (relevantMessages rawTx) ∧
        Forall (λ r,
            isIncoming r = truthy_string (source (in_msg rawTx)) ∧
            inMsgHash r = msg_hash (in_msg rawTx) ∧
            slug r = "toncoin" ∧
            (shouldHide r = Some true ↔
             ∃ code, exit_code (compute_ph (description rawTx)) = Some code ∧
                     code ≠ 0) ∧
            (shouldHide r = None ↔
             exit_code (compute_ph (description rawTx)) = None ∨
             exit_code (compute_ph (description rawTx)) = Some 0) ∧
            shouldHide r ≠ Some false)
          rs)
      (transactions sample_page) parsed.
Proof.
  split; [reflexivity |]. split; [vm_compute; reflexivity |].
  apply (event_fields_on_every_record sample_stringifyTxId
           sample_toBase64Address "toncoin" sample_mainnet_url
           sample_testnet_url sample_environment
           (sample_transactions sample_page) sample_options sample_page
           sample_records);
    [reflexivity | vm_compute; reflexivity].
Defined.

Lemma txIds_distinct_within_event_witness :
  sample_parseRawTransaction sample_outgoing sample_book
  = Ok sample_outgoing_records ∧
  NoDup (txId <$> sample_outgoing_records).
Proof.
  split; [vm_compute; reflexivity |].
  apply (txIds_distinct_within_event sample_stringifyTxId
           sample_toBase64Address "toncoin" mainnet sample_outgoing
           sample_book sample_outgoing_records).
  vm_compute; reflexivity.
Defined.

Lemma sample_books_same_keys (key : string) :
  is_Some (sample_book !! key) ↔ is_Some (sample_book_renamed !! key).
Proof.
  rewrite <- !elem_of_dom.
  assert (dom sample_book = dom sample_book_renamed) as ->
    by (vm_compute; reflexivity).
  done.
Qed.

Lemma book_names_only_witness :
  (∀ key, is_Some (sample_book !! key) ↔ is_Some (sample_book_renamed !! key)) ∧
  (λ recs : list ApiTransactionExtra, forgetFriendly <$> recs)
    <$> sample_parseRawTransaction sample_outgoing sample_book
  = (λ recs : list ApiTransactionExtra, forgetFriendly <$> recs)
      <$> sample_parseRawTransaction sample_outgoing sample_book_renamed.
Proof.
  split; [exact sample_books_same_keys |].
  apply (book_names_only sample_stringifyTxId sample_toBase64Address "toncoin"
           mainnet sample_outgoing sample_book sample_book_renamed
           sample_books_same_keys).
Defined.

Lemma fetchLatestTxId_answer_witness :
  sample_callApiV3 (sample_transactions sample_page) mainnet "/transactions"
    sample_latest_query = Ok sample_page ∧
  fetchLatestTxId sample_stringifyTxId sample_mainnet_url sample_testnet_url
    sample_environment (sample_transactions sample_page) mainnet "0:A"
  = Ok (Some "5:H").
Proof.
  split; [reflexivity |].
  apply (fetchLatestTxId_answer sample_stringifyTxId sample_mainnet_url
           sample_testnet_url sample_environment
           (sample_transactions sample_page) mainnet "0:A" sample_page).
  reflexivity.
Defined.

Lemma latest_id_and_first_records_witness :
  sample_callApiV3 (sample_transactions sample_page) (network sample_options)
    "/transactions" sample_latest_query = Ok sample_page ∧
  transactions sample_page = sample_outgoing :: [sample_incoming (Some "5")] ∧
  sample_callApiV3 (sample_transactions sample_page) (network sample_options)
    "/transactions" (transactionsQuery sample_options) = Ok sample_page ∧
  ∃ id,
    fetchLatestTxId sample_stringifyTxId sample_mainnet_url sample_testnet_url
      sample_environment (sample_transactions sample_page)
      (network sample_options) "0:A" = Ok (Some id) ∧
    ∀ recs, sample_fetchTransactions sample_page = Ok recs →
      (length (relevantMessages sample_outgoing) = 1%nat →
       ∃ r, recs !! 0%nat = Some r ∧ txId r = id) ∧
      ((1 < length (relevantMessages sample_outgoing))%nat →
       ∀ i, (i < length (relevantMessages sample_outgoing))%nat →
         ∃ r, recs !! i = Some r ∧
              txId r = id +:+ ":" +:+ pretty (i + 1)%nat ∧ txId r ≠ id).
Proof.
  split_and!; [reflexivity | reflexivity | reflexivity |].
  apply (latest_id_and_first_records sample_stringifyTxId
           sample_toBase64Address "toncoin" sample_mainnet_url
           sample_testnet_url sample_environment
           (sample_transactions sample_page) sample_options "0:A"
           sample_page sample_page sample_outgoing
           [sample_incoming (Some "5")] [sample_incoming (Some "5")]);
    reflexivity.
Defined.

Lemma record_timestamp_as_bound_witness :
  sample_parseRawTransaction sample_outgoing sample_book
  = Ok sample_outgoing_records ∧
  now sample_outgoing ≠ 0 ∧
  ∃ r, r ∈ sample_outgoing_records ∧
    msToSec (timestamp r) = 1700000000 ∧
    end_utime
      (transactionsQuery (sample_window None (Some (timestamp r)) None None))
    = Some 1699999999.
Proof.
  split; [vm_compute; reflexivity |]. split; [discriminate |].
  destruct sample_outgoing_records as [|r rest] eqn:Hrecs;
    [discriminate Hrecs |].
  assert (r ∈ r :: rest) as Hin by (by left).
  exists r. split; [exact Hin |].
  assert (sample_parseRawTransaction sample_outgoing sample_book
          = Ok (r :: rest)) as Hparse
    by (rewrite <- Hrecs; vm_compute; reflexivity).
  destruct (record_timestamp_as_bound sample_stringifyTxId
              sample_toBase64Address "toncoin" mainnet sample_outgoing
              sample_book (r :: rest) r Hparse Hin) as [Hsec Hbounds];
    [discriminate |].
  split; [exact Hsec |].
  destruct (Hbounds (sample_window None (Some (timestamp r)) None None))
    as [Hto _].
  exact (Hto eq_refl).
Defined.

Lemma exclusive_from_and_inclusive_to_are_exact_witness :
  (1500 : Z) ≠ 0 ∧
  ∃ bound,
    start_utime
      (transactionsQuery (sample_window (Some 1500) None (Some false) None))
    = Some bound ∧
    ∀ sec, bound ≤ sec ↔ 1500 < sec * 1000.
Proof.
  split; [discriminate |].
  apply (exclusive_from_and_inclusive_to_are_exact
           (sample_window (Some 1500) None (Some false) None) 1500);
    [discriminate | reflexivity | reflexivity].
Defined.

Lemma inclusive_from_and_exclusive_to_round_down_witness :
  (1500 : Z) ≠ 0 ∧
  ∃ bound,
    end_utime
      (transactionsQuery (sample_window None (Some 1500) None (Some false)))
    = Some bound ∧
    ∀ sec, sec ≤ bound ↔ sec * 1000 < 1500 - 1500 `mod` 1000.
Proof.
  split; [discriminate |].
  apply (inclusive_from_and_exclusive_to_round_down
           (sample_window None (Some 1500) None (Some false)) 1500);
    [discriminate | reflexivity | reflexivity].
Defined.

Lemma callApiV3_request_witness :
  ∃ (url : string) (headers : gmap string string),
    (∀ (D R : Type) (fetchJson : string → D → gmap string string → Result R)
       (data : D),
       sample_callApiV3 fetchJson mainnet "/addressBook" data
       = fetchJson url data headers) ∧
    url = "https://toncenter.com/api/v3/addressBook" ∧
    headers !! "X-Api-Key" = Some "key".
Proof.
  destruct (callApiV3_request sample_mainnet_url sample_testnet_url
              sample_environment mainnet "/addressBook")
    as (url & headers & Hcall & Hurl & Hkey & _).
  exists url, headers. split_and!; [exact Hcall | exact Hurl | exact Hkey].
Defined.


Lemma settlement_order_only_picks_the_error_witness :
  fetchAddressBook sample_mainnet_url sample_testnet_url sample_environment
    sample_flaky [0; 1]%nat mainnet sample_addresses
  = Throw (Failure "timeout") ∧
  ∃ e, fetchAddressBook sample_mainnet_url sample_testnet_url
         sample_environment sample_flaky [1; 0]%nat mainnet sample_addresses
       = Throw e.
Proof.
  assert (fetchAddressBook sample_mainnet_url sample_testnet_url
            sample_environment sample_flaky [0; 1]%nat mainnet
            sample_addresses = Throw (Failure "timeout")) as Hfirst
    by (vm_compute; reflexivity).
  split; [exact Hfirst |].
  destruct (proj2 (settlement_order_only_picks_the_error sample_mainnet_url
                     sample_testnet_url sample_environment sample_flaky
                     [0; 1]%nat [1; 0]%nat mainnet sample_addresses)
              _ Hfirst) as (e & He & _).
  by exists e.
Defined.

Lemma no_address_no_call_witness :
  fetchAddressBook sample_mainnet_url sample_testnet_url sample_environment
    sample_flaky [] mainnet [] = Ok ∅.
Proof.
  apply (no_address_no_call sample_mainnet_url sample_testnet_url
           sample_environment sample_flaky mainnet []).
  reflexivity.
Defined.

Lemma modal_title_offers_buying_witness :
  truthy_bool (isLedger sample_props) = true ∧
  isOnRampAllowed sample_props = true ∧
  modalTitleKey sample_props = "Add / Buy".
Proof.
  split; [reflexivity |]. split; [reflexivity |].
  apply (modal_title_offers_buying (λ key, key) sample_props);
    reflexivity.
Defined.
